(** * bmypy: racing [mypy] against [dmypy]

    A shallow embedding of [src/bmypy.py] and the verification of its
    result classifier, race coordinator and termination reporter.

    Layout:
    - [Text]       Python [str] values as lists of code points;
    - [Regex]      the fragment of Python's [re] that the two module-level
                   patterns use, with a backtracking matcher and [search];
    - [Bmypy]      [ProcResult], [is_successful_result], the effect monad,
                   the asyncio primitives the coordinator awaits on, and
                   [kill_mypy], [run_mypy], [run_dmypy], [inner_main];
    - theorems about the above. *)

From Stdlib Require Import List String Ascii Bool Arith NArith ZArith QArith Lia Lqa.
Import ListNotations.

Set Implicit Arguments.

(* ------------------------------------------------------------------ *)
(** ** Text *)

Module Text.

(** A Python [str] is a sequence of Unicode code points. *)
Definition char := N.
Definition text := list char.

(** String literals of the source, as texts. *)
Definition lit (s : string) : text :=
  map N_of_ascii (list_ascii_of_string s).

(** ["\n"] *)
Definition nl : char := 10%N.

(** Truthiness of a [str]: non-empty. *)
Definition truthy (t : text) : bool :=
  match t with [] => false | _ :: _ => true end.

Definition is_digit (c : char) : bool := ((48 <=? c) && (c <=? 57))%N.

(** Truthiness of a [list]: non-empty. *)
Definition truthy_list {A} (l : list A) : bool :=
  match l with [] => false | _ :: _ => true end.

End Text.
Import Text.

(* ------------------------------------------------------------------ *)
(** ** The fragment of [re] used by the module-level patterns *)

Module Regex.

(** Pattern syntax.  Only what [NO_ERRORS_RE] and [WITH_ERRORS_RE] are
    built from: literal characters, a character range, concatenation,
    [( )?], [+], and the anchors [^] and [$] (no [MULTILINE] flag). *)
Inductive regex : Type :=
| Eps
| Lit (c : char)
| Range (lo hi : char)
| Cat (r1 r2 : regex)
| Opt (r : regex)
| Plus (r : regex)
| Bos
| Eos.

(** A run of literal characters. *)
Fixpoint Str (w : text) : regex :=
  match w with
  | [] => Eps
  | c :: w' => Cat (Lit c) (Str w')
  end.

(** Concatenation of a list of pieces. *)
Fixpoint Seq (rs : list regex) : regex :=
  match rs with
  | [] => Eps
  | r :: rs' => Cat r (Seq rs')
  end.

(** [$] without [MULTILINE]: at the end of the string, or just before a
    newline that is the last character of the string. *)
Definition at_end (s : text) : bool :=
  match s with
  | [] => true
  | [c] => (c =? nl)%N
  | _ => false
  end.

(** One or more greedy iterations of a body [step], then [k].  After an
    iteration the matcher first tries another one (only if the iteration
    consumed something, so the loop ends), then the rest of the pattern. *)
Fixpoint plus_iter (step : nat -> text -> (nat -> text -> bool) -> bool)
         (k : nat -> text -> bool) (fuel : nat) (pos : nat) (s : text)
         {struct fuel} : bool :=
  step pos s
    (fun p' s' =>
       (match fuel with
        | O => false
        | S fuel' =>
            if (List.length s' <? List.length s)%nat
            then plus_iter step k fuel' p' s'
            else false
        end)
       || k p' s').

(** Backtracking matcher in continuation-passing style.  [pos] is the
    number of characters before the current point, [s] what remains, and
    [k] the rest of the pattern.  Quantifiers are greedy: the longer
    alternative is tried first. *)
Fixpoint matchk (r : regex) (pos : nat) (s : text)
         (k : nat -> text -> bool) {struct r} : bool :=
  match r with
  | Eps => k pos s
  | Lit c =>
      match s with
      | x :: s' => (x =? c)%N && k (S pos) s'
      | [] => false
      end
  | Range lo hi =>
      match s with
      | x :: s' => ((lo <=? x) && (x <=? hi))%N && k (S pos) s'
      | [] => false
      end
  | Cat r1 r2 => matchk r1 pos s (fun p' s' => matchk r2 p' s' k)
  | Opt r1 => matchk r1 pos s k || k pos s
  | Plus r1 => plus_iter (matchk r1) k (List.length s) pos s
  | Bos => (pos =? 0)%nat && k pos s
  | Eos => at_end s && k pos s
  end.

(** A match of the whole pattern starting at the current point. *)
Definition match_here (r : regex) (pos : nat) (s : text) : bool :=
  matchk r pos s (fun _ _ => true).

(** [search_from r pos s]: try every start position from [pos] on. *)
Fixpoint search_from (r : regex) (pos : nat) (s : text) : bool :=
  match_here r pos s
  || match s with
     | [] => false
     | _ :: s' => search_from r (S pos) s'
     end.

(** [pattern.search(s)], as a truth value. *)
Definition search (r : regex) (s : text) : bool := search_from r 0 s.

End Regex.
Import Regex.

(* ------------------------------------------------------------------ *)
(** ** The program *)

Module Bmypy.

(** [ProcType = Literal["mypy", "dmypy", "kill"]] *)
Inductive ProcType : Type := mypy | dmypy | kill.

(** [@dataclass class ProcResult] *)
Record ProcResult : Type := mkProcResult {
  type : ProcType;
  stdout : text;
  stderr : text;
  exit_code : Z
}.

(** The two module-level patterns, transcribed piece by piece into
    pattern syntax. *)

(** [[0-9]] *)
Definition digit : regex := Range 48%N 57%N.

(** [(s)?] *)
Definition opt_s : regex := Opt (Lit 115%N).

(** [r"^Success: no issues found in [0-9]+ source file(s)?\n$"] *)
Definition NO_ERRORS_RE : regex :=
  Seq [ Bos; Str (lit "Success: no issues found in "); Plus digit;
        Str (lit " source file"); opt_s; Lit nl; Eos ].

(** [r"\nFound [0-9]+ error(s)? in [0-9]+ file(s)? \(checked [0-9]+ source files\)\n$"] *)
Definition WITH_ERRORS_RE : regex :=
  Seq [ Lit nl; Str (lit "Found "); Plus digit; Str (lit " error"); opt_s;
        Str (lit " in "); Plus digit; Str (lit " file"); opt_s;
        Str (lit " (checked "); Plus digit; Str (lit " source files)");
        Lit nl; Eos ].

(** [def is_successful_result(result: ProcResult) -> bool] *)
Definition is_successful_result (result : ProcResult) : bool :=
  if negb ((exit_code result =? 0)%Z || (exit_code result =? 1)%Z) then false
  else if truthy (stderr result) then false
  else if search NO_ERRORS_RE (stdout result)
          || search WITH_ERRORS_RE (stdout result) then true
  else false.

(** *** Effects

    The coordinator is a coroutine: it emits observable events, reads a
    clock that advances while it is suspended, and ends by [sys.exit], by
    an exception that nothing catches, or never. *)

Inductive Exn : Type :=
| OSError               (* [create_subprocess_exec] could not launch *)
| UnicodeDecodeError    (* [bytes.decode()] on invalid UTF-8 *)
| TimeoutError          (* [wait_for] ran out of time; the built-in
                           exception, as asyncio raises it since 3.11 *)
| InvalidStateError     (* [Task.result()] on a task that is not done *)
| AssertionError.

Definition Exn_eqb (a b : Exn) : bool :=
  match a, b with
  | OSError, OSError | UnicodeDecodeError, UnicodeDecodeError
  | TimeoutError, TimeoutError | InvalidStateError, InvalidStateError
  | AssertionError, AssertionError => true
  | _, _ => false
  end.

Inductive Level : Type := DEBUG | INFO | WARNING.

(** The two tasks the coordinator creates. *)
Inductive TaskId : Type := DaemonTask | SyncTask.

Definition TaskId_eqb (a b : TaskId) : bool :=
  match a, b with
  | DaemonTask, DaemonTask | SyncTask, SyncTask => true
  | _, _ => false
  end.

(** Log records, by the call that emits them; the f-string arguments are
    kept as data ([str.strip] and the number formatting are not applied). *)
Inductive LogMsg : Type :=
| LaunchingMypy
| LaunchingDmypy
| FailedToKill (code : Z) (err : text)
| DmypyKilled
| DmypyFinished (code : Z)
| DmypyExited (code : Z) (err out : text)
| MypyFinishedFirst
| TimeoutWaiting.

Inductive Event : Type :=
| Log (lvl : Level) (m : LogMsg)
| Exec (ty : ProcType) (cmd : list text)        (* [create_subprocess_exec] on [cmd] *)
| AwaitFirst (ts : list TaskId)                 (* [wait(ts, FIRST_COMPLETED)] *)
| WaitFor (t : TaskId) (timeout : option Q)     (* [wait_for(t, timeout)] *)
| Cancel (t : TaskId)                           (* [t.cancel()] *)
| StdoutWrite (s : text)
| StderrWrite (s : text).

Inductive Stop : Type :=
| Exit (code : Z)       (* [SystemExit] *)
| Raise (e : Exn)
| Hang.                 (* suspended for ever *)

Inductive Step (A : Type) : Type :=
| Done (tr : list Event) (now : Q) (a : A)
| Stopped (tr : list Event) (now : Q) (why : Stop).
Arguments Stopped {A} tr now why.

(** A computation from the current time. *)
Definition M (A : Type) : Type := Q -> Step A.

Definition prepend {A} (tr : list Event) (st : Step A) : Step A :=
  match st with
  | Done tr' t a => Done (tr ++ tr') t a
  | Stopped tr' t w => Stopped (tr ++ tr') t w
  end.

Definition ret {A} (a : A) : M A := fun now => Done [] now a.

Definition bind {A B} (m : M A) (f : A -> M B) : M B :=
  fun now =>
    match m now with
    | Done tr t a => prepend tr (f a t)
    | Stopped tr t w => Stopped tr t w
    end.

Declare Scope coro_scope.
Delimit Scope coro_scope with coro.
Notation "x <- c1 ;; c2" := (bind c1 (fun x => c2))
  (at level 100, c1 at next level, right associativity) : coro_scope.
Notation "c1 ;; c2" := (bind c1 (fun _ => c2))
  (at level 100, right associativity) : coro_scope.
Open Scope coro_scope.

Definition emit (e : Event) : M unit := fun now => Done [e] now tt.
Definition stop {A} (w : Stop) : M A := fun now => Stopped [] now w.
Definition raise {A} (e : Exn) : M A := stop (Raise e).
Definition sys_exit {A} (code : Z) : M A := stop (Exit code).
Definition log (lvl : Level) (m : LogMsg) : M unit := emit (Log lvl m).
(** [sys.stdout.write(s)] and [sys.stderr.write(s)]; the streams are
    taken to accept any text. *)
Definition sys_stdout_write (s : text) : M unit := emit (StdoutWrite s).
Definition sys_stderr_write (s : text) : M unit := emit (StderrWrite s).
(** [print(s)] writes [s] and a newline to standard output. *)
Definition print (s : text) : M unit := sys_stdout_write (s ++ [nl]).

(** [try: body except e: handler] *)
Definition try_except {A} (body : M A) (e : Exn) (handler : M A) : M A :=
  fun now =>
    match body now with
    | Stopped tr t (Raise e') =>
        if Exn_eqb e' e then prepend tr (handler t) else Stopped tr t (Raise e')
    | st => st
    end.

(** Clock arithmetic. *)
Definition Qltb (a b : Q) : bool := negb (Qle_bool b a).
Definition later (a b : Q) : Q := if Qle_bool a b then b else a.

(** Suspend until time [t] (no effect if [t] has passed). *)
Definition sleep_until (t : Q) : M unit := fun now => Done [] (later now t) tt.

(** *** The environment of one invocation *)

(** What a child process does, as [wait_process_results] can observe it.
    [out] and [err] are the decoded streams, [None] where the bytes
    written are not valid UTF-8; [after] is the time from launch to exit,
    in seconds. *)
Inductive ProcRun : Type :=
| LaunchFails
| Exits (after : Q) (out err : option text) (code : Z)
| RunsForever.

Record Env : Type := mkEnv {
  argv : list text;                 (* [sys.argv] *)
  executable_parent : text;         (* [str(Path(sys.executable).parent)] *)
  proc : ProcType -> ProcRun
}.

(** [def script_path(name)]: [str(Path(sys.executable).parent / name)] for
    a plain file name, on a POSIX system: the name alone under [.], the
    name right after a parent that ends in a slash (the root), and parent,
    slash, name otherwise. *)
Definition script_path (env : Env) (name : text) : text :=
  let parent := executable_parent env in
  match parent with
  | [46%N] => name
  | _ =>
      if (last parent 0 =? 47)%N then parent ++ name
      else parent ++ lit "/" ++ name
  end.

(** [async def wait_process_results(type, cmd) -> ProcResult] *)
Definition wait_process_results (env : Env) (ty : ProcType) (cmd : list text)
  : M ProcResult :=
  emit (Exec ty cmd) ;;
  match proc env ty with
  | LaunchFails => raise OSError
  | RunsForever => stop Hang
  | Exits after out err code =>
      (fun now => sleep_until (now + after) now) ;;
      match out, err with
      | Some o, Some e => ret (mkProcResult ty o e code)
      | _, _ => raise UnicodeDecodeError
      end
  end.

(** [async def run_mypy(args) -> ProcResult] *)
Definition run_mypy (env : Env) (args : list text) : M ProcResult :=
  log DEBUG LaunchingMypy ;;
  wait_process_results env mypy (script_path env (lit "mypy") :: args).

(** [async def run_dmypy(args) -> ProcResult] *)
Definition run_dmypy (env : Env) (args : list text) : M ProcResult :=
  log DEBUG LaunchingDmypy ;;
  wait_process_results env dmypy
    (script_path env (lit "dmypy") :: lit "run" :: lit "--" :: args).

(** [async def kill_mypy() -> None] *)
Definition kill_mypy (env : Env) : M unit :=
  result <- wait_process_results env kill
              [script_path env (lit "dmypy"); lit "kill"] ;;
  if negb (exit_code result =? 0)%Z || truthy (stderr result) then
    log WARNING (FailedToKill (exit_code result) (stderr result))
  else
    log INFO DmypyKilled.

(** *** Tasks

    A task runs its coroutine beside the coordinator.  The coroutines of
    this program emit all their events before their first suspension, so
    a task's events are put in the trace where it is created; what is left
    of it is when it finishes and with what. *)
Record Task (A : Type) : Type := mkTask {
  task_id : TaskId;
  fate : option (Q * (A + Stop))    (* [None]: never finishes *)
}.

Definition fate_of {A} (st : Step A) : option (Q * (A + Stop)) :=
  match st with
  | Done _ t a => Some (t, inl a)
  | Stopped _ _ Hang => None
  | Stopped _ t w => Some (t, inr w)
  end.

Definition trace_of {A} (st : Step A) : list Event :=
  match st with Done tr _ _ | Stopped tr _ _ => tr end.

(** [create_task(coro)] *)
Definition create_task {A} (id : TaskId) (coro : M A) : M (Task A) :=
  fun now =>
    let st := coro now in
    Done (trace_of st) now (mkTask id (fate_of st)).

Definition finish_time {A} (t : Task A) : option Q :=
  match fate t with Some (tf, _) => Some tf | None => None end.

(** [t.done()] at time [now]. *)
Definition is_done {A} (now : Q) (t : Task A) : bool :=
  match finish_time t with Some tf => Qle_bool tf now | None => false end.

Fixpoint earliest {A} (ts : list (Task A)) : option Q :=
  match ts with
  | [] => None
  | t :: ts' =>
      match finish_time t, earliest ts' with
      | Some a, Some b => Some (if Qle_bool a b then a else b)
      | Some a, None => Some a
      | None, o => o
      end
  end.

(** [await wait(ts, return_when=FIRST_COMPLETED)]: resumes when the first
    of [ts] has finished and returns the tasks that are done by then. *)
Definition wait {A} (ts : list (Task A)) : M (list TaskId) :=
  emit (AwaitFirst (map (@task_id A) ts)) ;;
  match earliest ts with
  | None => stop Hang
  | Some tm =>
      sleep_until tm ;;
      (fun now => ret (map (@task_id A) (filter (is_done now) ts)) now)
  end.

(** [t in done] *)
Definition in_done {A} (t : Task A) (done : list TaskId) : bool :=
  existsb (TaskId_eqb (task_id t)) done.

(** Hand over what a finished task ended with: its value, or the
    exception it raised, which the awaiting coroutine gets raised in
    turn. *)
Definition complete {A} (r : A + Stop) : M A :=
  match r with inl a => ret a | inr w => stop w end.

(** [t.result()] *)
Definition task_result {A} (t : Task A) : M A :=
  fun now =>
    match fate t with
    | Some (tf, r) =>
        if Qle_bool tf now then complete r now
        else raise InvalidStateError now
    | None => raise InvalidStateError now
    end.

(** [await wait_for(t, timeout)]: the task's result or exception if it
    finishes before the deadline, [TimeoutError] at the deadline
    otherwise (also when the task would finish at that very instant); no
    deadline with [timeout=None]. *)
Definition wait_for {A} (t : Task A) (timeout : option Q) : M A :=
  emit (WaitFor (task_id t) timeout) ;;
  fun now =>
    match fate t, timeout with
    | Some (tf, r), None => (sleep_until tf ;; complete r) now
    | Some (tf, r), Some d =>
        if Qle_bool tf now || Qltb tf (now + d)
        then (sleep_until tf ;; complete r) now
        else (sleep_until (now + d) ;; raise TimeoutError) now
    | None, None => stop Hang now
    | None, Some d => (sleep_until (now + d) ;; raise TimeoutError) now
    end.

(** [t.cancel()] *)
Definition cancel {A} (t : Task A) : M unit := emit (Cancel (task_id t)).

(** *** [inner_main] *)

(** Lines 86-116: start both checkers and choose the result to report. *)
Definition race (env : Env) (args : list text) : M ProcResult :=
  daemon_task <- create_task DaemonTask (run_dmypy env args) ;;
  sync_task <- create_task SyncTask (run_mypy env args) ;;
  done <- wait [daemon_task; sync_task] ;;
  if in_done daemon_task done then
    result <- task_result daemon_task ;;
    if is_successful_result result then
      log DEBUG (DmypyFinished (exit_code result)) ;;
      cancel sync_task ;;
      ret result
    else
      log WARNING (DmypyExited (exit_code result) (stderr result) (stdout result)) ;;
      kill_mypy env ;;
      wait_for sync_task None
  else if in_done sync_task done then
    result <- task_result sync_task ;;
    log DEBUG MypyFinishedFirst ;;
    try_except (wait_for daemon_task (Some 1) ;; ret tt)
      TimeoutError
      (log DEBUG TimeoutWaiting ;; cancel daemon_task) ;;
    ret result
  else
    raise AssertionError.

(** Lines 118-122: write the chosen result out and exit with its code. *)
Definition report (result : ProcResult) : M unit :=
  sys_stdout_write (stdout result) ;;
  (if truthy (stderr result) then
     sys_stderr_write (lit "STDERR:" ++ [nl]) ;;
     sys_stderr_write (stderr result)
   else ret tt) ;;
  sys_exit (exit_code result).

(** [async def inner_main() -> None] *)
Definition inner_main (env : Env) : M unit :=
  let args := tl (argv env) in
  if negb (truthy_list args) then
    print (lit "No args!") ;;
    sys_exit 1
  else
    result <- race env args ;;
    report result.

(** One invocation: the coordinator run from time 0. *)
Definition run (env : Env) : Step unit := inner_main env 0.

(** *** What an invocation shows to its caller *)

(** What was written with [sys.stdout.write] and [print]. *)
Fixpoint stdout_of (tr : list Event) : text :=
  match tr with
  | [] => []
  | StdoutWrite s :: tr' => s ++ stdout_of tr'
  | _ :: tr' => stdout_of tr'
  end.

(** What was written with [sys.stderr.write].  Log records are not part
    of it: they are [Log] events, wherever the logging configuration
    sends them. *)
Fixpoint stderr_of (tr : list Event) : text :=
  match tr with
  | [] => []
  | StderrWrite s :: tr' => s ++ stderr_of tr'
  | _ :: tr' => stderr_of tr'
  end.

(** The argument of [sys.exit], if the run ended with it. *)
Definition exit_status {A} (st : Step A) : option Z :=
  match st with
  | Stopped _ _ (Exit c) => Some c
  | _ => None
  end.

Definition launches (tr : list Event) : list ProcType :=
  flat_map (fun e => match e with Exec ty _ => [ty] | _ => [] end) tr.

End Bmypy.
Import Bmypy.


(* ------------------------------------------------------------------ *)
(** ** Vocabulary of the statements *)

(** The texts the two patterns accept, written out. *)

(** One or more ASCII digits: [[0-9]+]. *)
Definition digits (ds : text) : Prop := ds <> [] /\ forallb is_digit ds = true.

(** [(s)?] *)
Definition plural (t : text) : Prop := t = [] \/ t = lit "s".

(** What [$] allows after the point it is tested at. *)
Definition trailer (e : text) : Prop := e = [] \/ e = [nl].

(** The whole output is the success line. *)
Definition success_line (out : text) : Prop :=
  exists n s e, digits n /\ plural s /\ trailer e /\
    out = lit "Success: no issues found in " ++ n ++ lit " source file" ++ s
          ++ [nl] ++ e.

(** The output ends with the summary footer, on a line of its own. *)
Definition summary_footer (out : text) : Prop :=
  exists pre n1 s1 n2 s2 n3 e,
    digits n1 /\ plural s1 /\ digits n2 /\ plural s2 /\ digits n3 /\ trailer e /\
    out = pre ++ [nl] ++ lit "Found " ++ n1 ++ lit " error" ++ s1 ++ lit " in " ++ n2
          ++ lit " file" ++ s2 ++ lit " (checked " ++ n3 ++ lit " source files)"
          ++ [nl] ++ e.

(** When the task that runs a process finishes, counted from its launch. *)
Definition finishes_at (p : ProcRun) : option Q :=
  match p with
  | LaunchFails => Some 0
  | Exits d _ _ _ => Some d
  | RunsForever => None
  end.

(** The task running [p] does not finish before [t] / by [t]. *)
Definition not_before (p : ProcRun) (t : Q) : Prop :=
  match finishes_at p with Some t' => t <= t' | None => True end.

Definition not_by (p : ProcRun) (t : Q) : Prop :=
  match finishes_at p with Some t' => t < t' | None => True end.

Definition mypy_cmd (env : Env) (args : list text) : list text :=
  script_path env (lit "mypy") :: args.

Definition dmypy_cmd (env : Env) (args : list text) : list text :=
  script_path env (lit "dmypy") :: lit "run" :: lit "--" :: args.

Definition kill_cmd (env : Env) : list text :=
  [script_path env (lit "dmypy"); lit "kill"].

(** The events of starting the two tasks and suspending on them. *)
Definition launch_events (env : Env) (args : list text) : list Event :=
  [Log DEBUG LaunchingDmypy; Exec dmypy (dmypy_cmd env args);
   Log DEBUG LaunchingMypy; Exec mypy (mypy_cmd env args);
   AwaitFirst [DaemonTask; SyncTask]].

(** [wait_process_results] after its [Exec] event, by what the process
    does. *)
Definition proc_step (ty : ProcType) (p : ProcRun) (now : Q) : Step ProcResult :=
  match p with
  | LaunchFails => Stopped [] now (Raise OSError)
  | RunsForever => Stopped [] now Hang
  | Exits d (Some o) (Some e) c =>
      Done [] (later now (now + d)) (mkProcResult ty o e c)
  | Exits d _ _ _ => Stopped [] (later now (now + d)) (Raise UnicodeDecodeError)
  end.

(** What the reporter writes to standard error for a result. *)
Definition stderr_report (r : ProcResult) : text :=
  match stderr r with
  | [] => []
  | _ :: _ => lit "STDERR:" ++ [nl] ++ stderr r
  end.

(** The events of [report]. *)
Definition report_events (r : ProcResult) : list Event :=
  StdoutWrite (stdout r)
  :: (if truthy (stderr r)
      then [StderrWrite (lit "STDERR:" ++ [nl]); StderrWrite (stderr r)]
      else []).

(** The invocation [st] reported [r]: it exited with [r]'s code, having
    written [r]'s stdout to standard output and [r]'s stderr, under its
    marker, to standard error, and nothing else to either. *)
Definition reports (st : Step unit) (r : ProcResult) : Prop :=
  exit_status st = Some (exit_code r) /\
  stdout_of (trace_of st) = stdout r /\
  stderr_of (trace_of st) = stderr_report r.

(** The invocation ended without a result: a wait that never ends, a
    process that could not be launched, or output that could not be
    decoded. *)
Definition aborted (w : Stop) : Prop :=
  w = Hang \/ w = Raise OSError \/ w = Raise UnicodeDecodeError.

(** The record [kill_mypy] logs for the result of the kill command. *)
Definition kill_log (code : Z) (err : text) : Event :=
  if negb (code =? 0)%Z || truthy err
  then Log WARNING (FailedToKill code err)
  else Log INFO DmypyKilled.

(** The daemon's process does not make its task raise before the grace
    period that starts at [ds] is over. *)
Definition quiet_in_grace (p : ProcRun) (ds : Q) : Prop :=
  match p with
  | Exits dd out err _ => dd < ds + 1 -> out <> None /\ err <> None
  | _ => True
  end.

(** The grace period that starts at [ds] runs out on the daemon's task. *)
Definition outlasts_grace (p : ProcRun) (ds : Q) : Prop :=
  match finishes_at p with Some dd => ds + 1 <= dd | None => True end.

(** [r] is what the process of kind [ty] produced. *)
Definition produced_by (env : Env) (ty : ProcType) (r : ProcResult) : Prop :=
  type r = ty /\
  exists d, proc env ty = Exits d (Some (stdout r)) (Some (stderr r)) (exit_code r).

(** [r] comes from one of the two tasks and from that one only; the other
    task was cancelled or, if it is the daemon's, had finished by [t]. *)
Definition one_task_only (env : Env) (r : ProcResult) (tr : list Event) (t : Q) : Prop :=
  (produced_by env dmypy r /\ ~ produced_by env mypy r /\ In (Cancel SyncTask) tr)
  \/ (produced_by env mypy r /\ ~ produced_by env dmypy r /\
      (In (Cancel DaemonTask) tr
       \/ exists dd, finishes_at (proc env dmypy) = Some dd /\ dd <= t)).

(** *** Sample invocations *)

Definition clean_output : text :=
  lit "Success: no issues found in 12 source files" ++ [nl].

Definition sample_argv : list text := [lit "bmypy"; lit "pkg"].

(** The daemon answers first, with a well-formed report. *)
Definition env_daemon_wins : Env :=
  mkEnv sample_argv (lit "/venv/bin")
    (fun ty =>
       match ty with
       | mypy => Exits 2 (Some clean_output) (Some []) 0
       | dmypy => Exits (1 # 2) (Some clean_output) (Some []) 0
       | kill => Exits (1 # 10) (Some []) (Some []) 0
       end).

(** The daemon answers first with a crash report, and the kill command
    fails too. *)
Definition env_daemon_crashes : Env :=
  mkEnv sample_argv (lit "/venv/bin")
    (fun ty =>
       match ty with
       | mypy => Exits 2 (Some clean_output) (Some []) 0
       | dmypy => Exits (1 # 2) (Some []) (Some (lit "Daemon crashed!")) 2
       | kill => Exits (1 # 10) (Some []) (Some (lit "No status file")) 2
       end).

(** The one-shot checker answers first and the daemon never does. *)
Definition env_daemon_hangs : Env :=
  mkEnv sample_argv (lit "/venv/bin")
    (fun ty =>
       match ty with
       | mypy => Exits 2 (Some clean_output) (Some []) 0
       | dmypy => RunsForever
       | kill => Exits (1 # 10) (Some []) (Some []) 0
       end).

(** The one-shot checker answers first; half a second later the daemon
    exits having written bytes that are not UTF-8. *)
Definition env_daemon_garbles : Env :=
  mkEnv sample_argv (lit "/venv/bin")
    (fun ty =>
       match ty with
       | mypy => Exits 2 (Some clean_output) (Some []) 0
       | dmypy => Exits (5 # 2) None (Some []) 0
       | kill => Exits (1 # 10) (Some []) (Some []) 0
       end).

(** The daemon's client cannot be launched. *)
Definition env_no_dmypy : Env :=
  mkEnv sample_argv (lit "/venv/bin")
    (fun ty =>
       match ty with
       | mypy => Exits 2 (Some clean_output) (Some []) 0
       | _ => LaunchFails
       end).

(** No arguments. *)
Definition env_no_args : Env :=
  mkEnv [lit "bmypy"] (lit "/venv/bin") (fun _ => LaunchFails).

(** Newline-free text. *)
Definition no_nl (t : text) : bool := forallb (fun c => negb (c =? nl)%N) t.

(** A report of one error. *)
Definition errors_output : text :=
  lit "pkg/a.py:1: error: Name x is not defined" ++ [nl]
  ++ lit "Found 1 error in 1 file (checked 3 source files)" ++ [nl].

(** Neither checker ever answers. *)
Definition env_both_hang : Env :=
  mkEnv sample_argv (lit "/venv/bin") (fun _ => RunsForever).

(** The one-shot checker answers first, with bytes that are not UTF-8. *)
Definition env_mypy_garbles : Env :=
  mkEnv sample_argv (lit "/venv/bin")
    (fun ty =>
       match ty with
       | mypy => Exits 2 None (Some []) 1
       | dmypy => RunsForever
       | kill => Exits (1 # 10) (Some []) (Some []) 0
       end).

(** The daemon answers first with a crash report, and the kill command
    never exits. *)
Definition env_kill_hangs : Env :=
  mkEnv sample_argv (lit "/venv/bin")
    (fun ty =>
       match ty with
       | mypy => Exits 2 (Some clean_output) (Some []) 0
       | dmypy => Exits (1 # 2) (Some []) (Some (lit "Daemon crashed!")) 2
       | kill => RunsForever
       end).

(** The exit status the caller of the process sees after [sys.exit(code)]:
    the low eight bits of [code]. *)
Definition process_status (code : Z) : Z := code mod 256.

Definition process_exit_status {A} (st : Step A) : option Z :=
  match st with
  | Stopped _ _ (Exit c) => Some (process_status c)
  | _ => None
  end.

(** The arguments of the calls of [sys.stderr.write], in order. *)
Definition stderr_writes (tr : list Event) : list text :=
  flat_map (fun e => match e with StderrWrite s => [s] | _ => [] end) tr.







(** The one-shot checker is killed by signal 9 while the daemon hangs. *)
Definition env_mypy_killed : Env :=
  mkEnv sample_argv (lit "/venv/bin")
    (fun ty =>
       match ty with
       | mypy => Exits 2 (Some []) (Some []) (-9)
       | dmypy => RunsForever
       | kill => Exits (1 # 10) (Some []) (Some []) 0
       end).

(** The daemon answers first with a crash report, and the kill command
    exits with code 1 and a stderr that is not UTF-8. *)
Definition env_kill_garbles : Env :=
  mkEnv sample_argv (lit "/venv/bin")
    (fun ty =>
       match ty with
       | mypy => Exits 2 (Some clean_output) (Some []) 0
       | dmypy => Exits (1 # 2) (Some []) (Some (lit "Daemon crashed!")) 2
       | kill => Exits (1 # 10) (Some []) None 1
       end).

(* ------------------------------------------------------------------ *)
(** ** The matcher on the pieces of the two patterns *)

Section MatcherLemmas.

Variable k : nat -> text -> bool.

Lemma matchk_Seq_nil p s : matchk (Seq []) p s k = k p s.
Proof. reflexivity. Qed.

Lemma matchk_Seq_cons r rs p s :
  matchk (Seq (r :: rs)) p s k = matchk r p s (fun p' s' => matchk (Seq rs) p' s' k).
Proof. reflexivity. Qed.

Lemma matchk_Lit_elim c p s :
  matchk (Lit c) p s k = true -> exists s', s = c :: s' /\ k (S p) s' = true.
Proof.
  destruct s as [|x s']; simpl; [discriminate|].
  intros H. apply andb_true_iff in H. destruct H as [Hx Hk].
  apply N.eqb_eq in Hx. subst x. eauto.
Qed.

Lemma matchk_Lit_intro c p s' :
  k (S p) s' = true -> matchk (Lit c) p (c :: s') k = true.
Proof. intros H. simpl. now rewrite N.eqb_refl, H. Qed.

Lemma matchk_Eos_elim p s :
  matchk Eos p s k = true -> trailer s /\ k p s = true.
Proof.
  simpl. intros H. apply andb_true_iff in H. destruct H as [He Hk].
  split; [|exact Hk].
  destruct s as [|c [|d s]]; simpl in He; try discriminate.
  - now left.
  - right. apply N.eqb_eq in He. now subst.
Qed.

Lemma matchk_Eos_intro p s :
  trailer s -> k p s = true -> matchk Eos p s k = true.
Proof. intros [-> | ->] H; simpl; exact H. Qed.

End MatcherLemmas.

Lemma matchk_Str_elim w : forall k p s,
  matchk (Str w) p s k = true -> exists p' s', s = w ++ s' /\ k p' s' = true.
Proof.
  induction w as [|c w IH]; intros k p s H.
  - exists p, s. now split.
  - change (matchk (Lit c) p s (fun p' s' => matchk (Str w) p' s' k) = true) in H.
    apply matchk_Lit_elim in H. destruct H as (s1 & -> & H).
    apply IH in H. destruct H as (p' & s' & -> & H). exists p', s'. now split.
Qed.

Lemma matchk_Str_intro w : forall k p s',
  (forall p', k p' s' = true) -> matchk (Str w) p (w ++ s') k = true.
Proof.
  induction w as [|c w IH]; intros k p s' H.
  - apply H.
  - simpl. rewrite N.eqb_refl. simpl. now apply IH.
Qed.

Lemma matchk_digit p s k :
  matchk digit p s k =
  match s with x :: s' => is_digit x && k (S p) s' | [] => false end.
Proof. reflexivity. Qed.

Lemma plus_iter_unfold step k fuel p s :
  plus_iter step k fuel p s =
  step p s
    (fun p' s' =>
       (match fuel with
        | O => false
        | S fuel' =>
            if (List.length s' <? List.length s)%nat
            then plus_iter step k fuel' p' s'
            else false
        end)
       || k p' s').
Proof. destruct fuel; reflexivity. Qed.

Lemma plus_digit_elim k : forall fuel p s,
  plus_iter (matchk digit) k fuel p s = true ->
  exists ds p' s', digits ds /\ s = ds ++ s' /\ k p' s' = true.
Proof.
  induction fuel as [|fuel IH]; intros p s H; simpl in H;
    destruct s as [|x s']; try discriminate;
    apply andb_true_iff in H; destruct H as [Hx H];
    change (is_digit x = true) in Hx.
  - simpl in H. exists [x], (S p), s'. repeat split; try easy.
    simpl. now rewrite Hx.
  - apply orb_true_iff in H. destruct H as [H|H].
    + destruct (List.length s' <? List.length (x :: s'))%nat; [|discriminate].
      apply IH in H. destruct H as (ds & p' & s'' & [Hne Hds] & -> & H).
      exists (x :: ds), p', s''. repeat split; try easy.
      simpl. now rewrite Hx.
    + exists [x], (S p), s'. repeat split; try easy.
      simpl. now rewrite Hx.
Qed.

Lemma plus_digit_intro k s' (Hk : forall p', k p' s' = true) : forall ds fuel p,
  digits ds -> (List.length (ds ++ s') <= fuel)%nat ->
  plus_iter (matchk digit) k fuel p (ds ++ s') = true.
Proof.
  induction ds as [|x ds IH]; intros fuel p [Hne Hds] Hfuel; [congruence|].
  simpl in Hds. apply andb_true_iff in Hds. destruct Hds as [Hx Hds].
  destruct fuel as [|fuel]; [simpl in Hfuel; lia|].
  change ((x :: ds) ++ s') with (x :: (ds ++ s')).
  rewrite plus_iter_unfold, matchk_digit. rewrite Hx. rewrite andb_true_l.
  destruct ds as [|y ds].
  - change ([] ++ s') with s'. rewrite Hk. apply orb_true_r.
  - assert (Hlt : (List.length ((y :: ds) ++ s') <? List.length (x :: (y :: ds) ++ s'))%nat = true)
      by (apply Nat.ltb_lt; simpl; lia).
    rewrite Hlt. rewrite IH; [reflexivity| |].
    + split; [discriminate|exact Hds].
    + simpl in Hfuel |- *. lia.
Qed.

Lemma matchk_plus_digit_elim k p s :
  matchk (Plus digit) p s k = true ->
  exists ds p' s', digits ds /\ s = ds ++ s' /\ k p' s' = true.
Proof. apply plus_digit_elim. Qed.

Lemma matchk_plus_digit_intro k p ds s' :
  digits ds -> (forall p', k p' s' = true) ->
  matchk (Plus digit) p (ds ++ s') k = true.
Proof.
  intros Hd Hk. change (plus_iter (matchk digit) k (List.length (ds ++ s')) p (ds ++ s') = true).
  now apply plus_digit_intro.
Qed.

Lemma matchk_opt_s_elim k p s :
  matchk opt_s p s k = true ->
  exists t p' s', plural t /\ s = t ++ s' /\ k p' s' = true.
Proof.
  unfold opt_s. simpl. intros H. apply orb_true_iff in H. destruct H as [H|H].
  - destruct s as [|x s']; [discriminate|].
    apply andb_true_iff in H. destruct H as [Hx H]. apply N.eqb_eq in Hx. subst x.
    exists (lit "s"), (S p), s'. repeat split; try easy. now right.
  - exists [], p, s. repeat split; try easy. now left.
Qed.

Lemma matchk_opt_s_intro k p t s' :
  plural t -> (forall p', k p' s' = true) -> matchk opt_s p (t ++ s') k = true.
Proof.
  intros [-> | ->] Hk; unfold opt_s; simpl.
  - rewrite Hk. apply orb_true_r.
  - now rewrite Hk.
Qed.

Lemma search_from_elim r : forall s p,
  search_from r p s = true ->
  exists pre s', s = pre ++ s' /\ match_here r (p + List.length pre) s' = true.
Proof.
  induction s as [|c s IH]; intros p H; simpl in H;
    apply orb_true_iff in H; destruct H as [H|H]; try discriminate.
  - exists [], []. simpl. now rewrite Nat.add_0_r.
  - exists [], (c :: s). simpl. now rewrite Nat.add_0_r.
  - apply IH in H. destruct H as (pre & s' & -> & H).
    exists (c :: pre), s'. split; [reflexivity|].
    simpl List.length. now rewrite Nat.add_succ_r.
Qed.

Lemma search_from_intro r : forall pre p s',
  match_here r (p + List.length pre) s' = true ->
  search_from r p (pre ++ s') = true.
Proof.
  induction pre as [|c pre IH]; intros p s' H.
  - simpl in H. rewrite Nat.add_0_r in H. simpl app.
    destruct s'; simpl; rewrite H; reflexivity.
  - simpl app. simpl search_from. rewrite IH; [apply orb_true_r|].
    simpl List.length in H. now rewrite Nat.add_succ_r in H.
Qed.

Ltac seq_elim H :=
  repeat
    (rewrite matchk_Seq_cons in H;
     first
       [ apply matchk_Str_elim in H;
         let p := fresh "p" in let s := fresh "s" in
         destruct H as (p & s & -> & H)
       | apply matchk_plus_digit_elim in H;
         let n := fresh "n" in let p := fresh "p" in let s := fresh "s" in
         let Hn := fresh "Hn" in
         destruct H as (n & p & s & Hn & -> & H)
       | apply matchk_opt_s_elim in H;
         let t := fresh "t" in let p := fresh "p" in let s := fresh "s" in
         let Ht := fresh "Ht" in
         destruct H as (t & p & s & Ht & -> & H)
       | apply matchk_Lit_elim in H;
         let s := fresh "s" in
         destruct H as (s & -> & H)
       | apply matchk_Eos_elim in H;
         let He := fresh "He" in
         destruct H as (He & H) ]).

Ltac seq_intro :=
  repeat
    (rewrite matchk_Seq_cons;
     first
       [ apply matchk_Str_intro; intros ?
       | apply matchk_plus_digit_intro; [assumption | intros ?]
       | apply matchk_opt_s_intro; [assumption | intros ?]
       | apply matchk_Lit_intro
       | apply matchk_Eos_intro; [assumption | ] ]);
  try reflexivity.

Lemma matchk_Bos k p s : matchk Bos p s k = (p =? 0)%nat && k p s.
Proof. reflexivity. Qed.

Ltac shape_intro :=
  repeat match goal with |- _ /\ _ => split end;
  cycle -1; [reflexivity | assumption ..].

Lemma match_here_NO_ERRORS p s :
  match_here NO_ERRORS_RE p s = true <-> p = 0%nat /\ success_line s.
Proof.
  unfold match_here, NO_ERRORS_RE. split.
  - intros H. rewrite matchk_Seq_cons, matchk_Bos in H.
    apply andb_true_iff in H. destruct H as [Hp H]. apply Nat.eqb_eq in Hp.
    split; [exact Hp|].
    seq_elim H.
    unfold success_line. do 3 eexists. shape_intro.
  - intros [-> (n & t & e & Hn & Ht & He & ->)].
    rewrite matchk_Seq_cons, matchk_Bos. rewrite andb_true_l.
    seq_intro.
Qed.

Lemma search_NO_ERRORS s : search NO_ERRORS_RE s = true <-> success_line s.
Proof.
  unfold search. split.
  - intros H. apply search_from_elim in H. destruct H as (pre & s' & -> & H).
    apply match_here_NO_ERRORS in H. destruct H as [Hp H].
    destruct pre; [exact H|discriminate].
  - intros H. apply (search_from_intro _ [] 0%nat s).
    apply match_here_NO_ERRORS. now split.
Qed.

Lemma search_WITH_ERRORS s : search WITH_ERRORS_RE s = true <-> summary_footer s.
Proof.
  unfold search. split.
  - intros H. apply search_from_elim in H. destruct H as (pre & s' & -> & H).
    unfold match_here, WITH_ERRORS_RE in H.
    seq_elim H.
    unfold summary_footer. do 7 eexists. shape_intro.
  - intros (pre & n1 & s1 & n2 & s2 & n3 & e & H1 & P1 & H2 & P2 & H3 & He & ->).
    apply search_from_intro. unfold match_here, WITH_ERRORS_RE.
    seq_intro.
Qed.

(* ------------------------------------------------------------------ *)
(** ** The coordinator *)

Lemma Qle_bool_true a b : a <= b -> Qle_bool a b = true.
Proof. apply Qle_bool_iff. Qed.

Lemma Qle_bool_false a b : b < a -> Qle_bool a b = false.
Proof.
  intros H. destruct (Qle_bool a b) eqn:E; [|reflexivity].
  apply Qle_bool_iff in E. lra.
Qed.

Lemma Qle_bool_false_lt a b : Qle_bool a b = false -> b < a.
Proof.
  intros E. apply Qnot_le_lt. intros H. apply Qle_bool_iff in H. congruence.
Qed.

Ltac no_test t :=
  lazymatch t with
  | context [Qle_bool _ _] => fail
  | _ => idtac
  end.

Ltac qcase :=
  match goal with
  | |- context [Qle_bool ?a ?b] =>
      no_test a; no_test b;
      first
        [ rewrite (Qle_bool_true a b) by lra
        | rewrite (Qle_bool_false a b) by lra
        | let E := fresh "E" in
          destruct (Qle_bool a b) eqn:E;
          [ apply Qle_bool_iff in E | apply Qle_bool_false_lt in E ];
          try (exfalso; lra) ]
  end.

Ltac run_cbv :=
  cbv beta iota zeta delta
    [bind ret raise stop sys_exit emit log cancel complete prepend
     task_result wait_for wait sleep_until try_except kill_mypy
     wait_process_results
     sys_stdout_write sys_stderr_write print report
     proc_step fate_of trace_of finish_time is_done earliest in_done
     task_id fate existsb filter map app TaskId_eqb Exn_eqb
     later Qltb negb orb andb truthy exit_code stderr stdout type].

Ltac qsolve := repeat (run_cbv; try qcase).

#[local] Arguments Qle_bool : simpl never.
#[local] Arguments Qplus : simpl never.
#[local] Arguments is_successful_result : simpl never.
#[local] Arguments lit : simpl never.
#[local] Arguments script_path : simpl never.

Lemma bind_create_task {A B} id (coro : M A) (f : Task A -> M B) now :
  bind (create_task id coro) f now =
  prepend (trace_of (coro now)) (f (mkTask id (fate_of (coro now))) now).
Proof. reflexivity. Qed.

Lemma wait_process_results_eq env ty cmd now :
  wait_process_results env ty cmd now =
  prepend [Exec ty cmd] (proc_step ty (proc env ty) now).
Proof.
  unfold wait_process_results, bind, emit, proc_step.
  destruct (proc env ty) as [|d [o|] [e|] c|]; reflexivity.
Qed.

Lemma run_dmypy_eq env args now :
  run_dmypy env args now =
  prepend [Log DEBUG LaunchingDmypy; Exec dmypy (dmypy_cmd env args)]
    (proc_step dmypy (proc env dmypy) now).
Proof.
  unfold run_dmypy, bind, log, emit. rewrite wait_process_results_eq.
  destruct (proc_step dmypy (proc env dmypy) now); reflexivity.
Qed.

Lemma run_mypy_eq env args now :
  run_mypy env args now =
  prepend [Log DEBUG LaunchingMypy; Exec mypy (mypy_cmd env args)]
    (proc_step mypy (proc env mypy) now).
Proof.
  unfold run_mypy, bind, log, emit. rewrite wait_process_results_eq.
  destruct (proc_step mypy (proc env mypy) now); reflexivity.
Qed.

Ltac race_start :=
  unfold race; rewrite !bind_create_task, run_dmypy_eq, run_mypy_eq.

Lemma race_daemon_trusted env args dd o e c :
  proc env dmypy = Exits dd (Some o) (Some e) c ->
  not_before (proc env mypy) dd ->
  is_successful_result (mkProcResult dmypy o e c) = true ->
  exists t,
    race env args 0 =
    Done (launch_events env args ++ [Log DEBUG (DmypyFinished c); Cancel SyncTask])
         t (mkProcResult dmypy o e c).
Proof.
  intros Hd Hs Hok. race_start. rewrite Hd. unfold not_before in Hs.
  destruct (proc env mypy) as [|ds [so|] [se|] sc|]; cbn in Hs |- *.
  all: qsolve.
  all: rewrite Hok; qsolve.
  all: eexists; reflexivity.
Qed.

Lemma race_daemon_untrusted env args dd o e c dk ko ke kc ds so se sc :
  proc env dmypy = Exits dd (Some o) (Some e) c ->
  proc env mypy = Exits ds (Some so) (Some se) sc ->
  proc env kill = Exits dk (Some ko) (Some ke) kc ->
  dd <= ds ->
  is_successful_result (mkProcResult dmypy o e c) = false ->
  exists t,
    race env args 0 =
    Done (launch_events env args ++
          [Log WARNING (DmypyExited c e o); Exec kill (kill_cmd env);
           kill_log kc ke; WaitFor SyncTask None])
         t (mkProcResult mypy so se sc)
    /\ dd + dk <= t /\ ds <= t.
Proof.
  intros Hd Hs Hk Hle Hbad. race_start. rewrite Hd, Hs.
  qsolve; rewrite Hbad; qsolve; rewrite Hk; qsolve.
  all: unfold kill_log; destruct (kc =? 0)%Z, ke; qsolve;
    (eexists; split; [reflexivity | split; lra]).
Qed.

Lemma race_sync_first_in_time env args ds so se sc dd o e c :
  proc env mypy = Exits ds (Some so) (Some se) sc ->
  proc env dmypy = Exits dd (Some o) (Some e) c ->
  0 <= ds -> ds < dd -> dd < ds + 1 ->
  exists t,
    race env args 0 =
    Done (launch_events env args ++
          [Log DEBUG MypyFinishedFirst; WaitFor DaemonTask (Some 1)])
         t (mkProcResult mypy so se sc)
    /\ t <= ds + 1.
Proof.
  intros Hs Hd H0 Hlt Hin. race_start. rewrite Hd, Hs.
  qsolve. all: eexists; split; [reflexivity | lra].
Qed.

Lemma race_sync_first_timeout env args ds so se sc :
  proc env mypy = Exits ds (Some so) (Some se) sc ->
  0 <= ds -> outlasts_grace (proc env dmypy) ds ->
  exists t,
    race env args 0 =
    Done (launch_events env args ++
          [Log DEBUG MypyFinishedFirst; WaitFor DaemonTask (Some 1);
           Log DEBUG TimeoutWaiting; Cancel DaemonTask])
         t (mkProcResult mypy so se sc)
    /\ t <= ds + 1.
Proof.
  intros Hs H0 Hout. race_start. rewrite Hs. unfold outlasts_grace in Hout.
  destruct (proc env dmypy) as [|dd [o|] [e|] c|]; cbn in Hout; try lra.
  all: qsolve.
  all: eexists; split; [reflexivity | lra].
Qed.

(** *** What reaches the caller *)

Lemma stdout_of_app a b : stdout_of (a ++ b) = stdout_of a ++ stdout_of b.
Proof.
  induction a as [|[] a IH]; simpl; try exact IH.
  - reflexivity.
  - now rewrite IH, app_assoc.
Qed.

Lemma stderr_of_app a b : stderr_of (a ++ b) = stderr_of a ++ stderr_of b.
Proof.
  induction a as [|[] a IH]; simpl; try exact IH.
  - reflexivity.
  - now rewrite IH, app_assoc.
Qed.

Lemma launches_app a b : launches (a ++ b) = launches a ++ launches b.
Proof. apply flat_map_app. Qed.

Lemma report_eq r now :
  report r now = Stopped (report_events r) now (Exit (exit_code r)).
Proof.
  unfold report, report_events, bind, sys_stdout_write, sys_stderr_write, emit, sys_exit, stop.
  destruct (truthy (stderr r)); reflexivity.
Qed.

Lemma stdout_of_report r : stdout_of (report_events r) = stdout r.
Proof.
  unfold report_events. destruct (truthy (stderr r)); simpl; apply app_nil_r.
Qed.

Lemma stderr_of_report r : stderr_of (report_events r) = stderr_report r.
Proof.
  unfold report_events, stderr_report. destruct (stderr r); simpl; [reflexivity|].
  now rewrite app_nil_r.
Qed.

Lemma launches_report r : launches (report_events r) = [].
Proof. unfold report_events. destruct (truthy (stderr r)); reflexivity. Qed.

Lemma run_with_args env :
  tl (argv env) <> [] ->
  run env = bind (race env (tl (argv env))) report 0.
Proof.
  intros H. unfold run, inner_main. destruct (tl (argv env)); [congruence|reflexivity].
Qed.

Lemma run_Done env tr t r :
  tl (argv env) <> [] ->
  race env (tl (argv env)) 0 = Done tr t r ->
  run env = Stopped (tr ++ report_events r) t (Exit (exit_code r)).
Proof.
  intros Ha Hr. rewrite (run_with_args env Ha). unfold bind. rewrite Hr, report_eq.
  reflexivity.
Qed.

Lemma run_Stopped env tr t w :
  tl (argv env) <> [] ->
  race env (tl (argv env)) 0 = Stopped tr t w ->
  run env = Stopped tr t w.
Proof.
  intros Ha Hr. rewrite (run_with_args env Ha). unfold bind. now rewrite Hr.
Qed.

Lemma reports_intro tr t r :
  stdout_of tr = [] -> stderr_of tr = [] ->
  reports (Stopped (tr ++ report_events r) t (Exit (exit_code r))) r.
Proof.
  intros Ho He. unfold reports. simpl.
  rewrite stdout_of_app, stderr_of_app, Ho, He, stdout_of_report, stderr_of_report.
  repeat split.
Qed.

(** *** Every way the race can go *)

Ltac crunch :=
  repeat
    (run_cbv;
     try first
       [ qcase
       | match goal with
         | |- context [is_successful_result ?r] =>
             let E := fresh "Hcls" in destruct (is_successful_result r) eqn:E
         | |- context [proc ?env kill] =>
             let E := fresh "Hkill" in
             destruct (proc env kill) as [|? [?|] [?|] ?|] eqn:E
         | |- context [(?c =? 0)%Z] => destruct (c =? 0)%Z
         | |- context [match ?l with [] => _ | _ :: _ => _ end] =>
             is_var l; destruct l
         end ]).

Lemma race_cases env args :
  (exists tr t r,
      race env args 0 = Done tr t r /\ stdout_of tr = [] /\ stderr_of tr = [] /\
      one_task_only env r tr t)
  \/ (exists tr t w,
      race env args 0 = Stopped tr t w /\ aborted w /\
      stdout_of tr = [] /\ stderr_of tr = []).
Proof.
  race_start.
  destruct (proc env dmypy) as [|dd [o|] [e|] c|] eqn:Hd;
  destruct (proc env mypy) as [|ds [so|] [se|] sc|] eqn:Hs.
  all: crunch.
  all: first
    [ right; do 3 eexists; split; [reflexivity|];
      split; [first [now left | now (right; left) | now (right; right)]|];
      split; reflexivity
    | left; do 3 eexists; split; [reflexivity|];
      split; [reflexivity|]; split; [reflexivity|];
      unfold one_task_only, produced_by; cbn;
      first
        [ left; split; [split; [reflexivity|eexists; eassumption]|];
          split; [intros [? _]; discriminate|];
          cbn; intuition congruence
        | right; split; [split; [reflexivity|eexists; eassumption]|];
          split; [intros [? _]; discriminate|];
          first [ left; cbn; intuition congruence
                | right; rewrite Hd; cbn; eexists; split; [reflexivity|lra] ] ] ].
Qed.



Lemma race_daemon_untrusted_shape env args dd o e c :
  proc env dmypy = Exits dd (Some o) (Some e) c ->
  not_before (proc env mypy) dd ->
  is_successful_result (mkProcResult dmypy o e c) = false ->
  exists rest t,
    (exists r,
        race env args 0 =
          Done (launch_events env args ++
                [Log WARNING (DmypyExited c e o); Exec kill (kill_cmd env)] ++ rest)
               t r /\
        produced_by env mypy r /\
        (exists dk ko ke kc, proc env kill = Exits dk (Some ko) (Some ke) kc) /\
        stdout_of rest = [] /\ stderr_of rest = [])
    \/ (exists w,
        race env args 0 =
          Stopped (launch_events env args ++
                   [Log WARNING (DmypyExited c e o); Exec kill (kill_cmd env)] ++ rest)
                  t w /\
        aborted w /\ stdout_of rest = [] /\ stderr_of rest = []).
Proof.
  intros Hd Hs Hbad. race_start. rewrite Hd. unfold not_before in Hs.
  destruct (proc env mypy) as [|ds [so|] [se|] sc|] eqn:Hm; cbn in Hs.
  all: qsolve; rewrite Hbad; crunch.
  all: do 2 eexists;
    first
      [ right; eexists; split; [reflexivity|];
        split; [first [now left | now (right; left) | now (right; right)]|];
        split; reflexivity
      | left; eexists; split; [reflexivity|];
        split; [split; [reflexivity|eexists; eassumption]|];
        split; [do 4 eexists; reflexivity|]; split; reflexivity ].
Qed.

Lemma stderr_of_nil_no_marker tr s :
  stderr_of tr = [] -> In (StderrWrite s) tr -> s = [].
Proof.
  induction tr as [|ev tr IH]; simpl; [easy|].
  intros H [->|Hin].
  - now apply app_eq_nil in H.
  - apply IH; [|exact Hin]. destruct ev; try exact H.
    now apply app_eq_nil in H.
Qed.

Lemma race_Done_silent env args tr t r :
  race env args 0 = Done tr t r ->
  stdout_of tr = [] /\ stderr_of tr = [] /\ one_task_only env r tr t.
Proof.
  intros H. destruct (race_cases env args) as [(tr' & t' & r' & E & Ho & He & Hone)
                                              |(tr' & t' & w & E & _)];
    rewrite H in E; [|discriminate].
  injection E as <- <- <-. auto.
Qed.

(** *** Concrete runs *)

Example run_daemon_garbles :
  run env_daemon_garbles =
  Stopped (launch_events env_daemon_garbles (tl sample_argv) ++
           [Log DEBUG MypyFinishedFirst; WaitFor DaemonTask (Some 1)])
          (5 # 2) (Raise UnicodeDecodeError).
Proof. vm_compute. reflexivity. Qed.


Example run_daemon_hangs :
  run env_daemon_hangs =
  Stopped (launch_events env_daemon_hangs (tl sample_argv) ++
           [Log DEBUG MypyFinishedFirst; WaitFor DaemonTask (Some 1);
            Log DEBUG TimeoutWaiting; Cancel DaemonTask;
            StdoutWrite clean_output])
          3 (Exit 0).
Proof. vm_compute. reflexivity. Qed.

Example run_mypy_killed :
  run env_mypy_killed =
  Stopped (launch_events env_mypy_killed (tl sample_argv) ++
           [Log DEBUG MypyFinishedFirst; WaitFor DaemonTask (Some 1);
            Log DEBUG TimeoutWaiting; Cancel DaemonTask; StdoutWrite []])
          3 (Exit (-9)).
Proof. vm_compute. reflexivity. Qed.

Example run_kill_garbles :
  run env_kill_garbles =
  Stopped (launch_events env_kill_garbles (tl sample_argv) ++
           [Log WARNING (DmypyExited 2 (lit "Daemon crashed!") []);
            Exec kill (kill_cmd env_kill_garbles)])
          (0 + (1 # 2) + (1 # 10)) (Raise UnicodeDecodeError).
Proof. vm_compute. reflexivity. Qed.

Example classify_clean :
  is_successful_result (mkProcResult dmypy clean_output [] 0) = true.
Proof. vm_compute. reflexivity. Qed.

Example classify_traceback :
  is_successful_result
    (mkProcResult dmypy [] (lit "Traceback..." ++ [nl]) 2) = false.
Proof. vm_compute. reflexivity. Qed.

Example classify_trailing_blank_line :
  is_successful_result (mkProcResult mypy (clean_output ++ [nl]) [] 0) = true.
Proof. vm_compute. reflexivity. Qed.

Example classify_footer_needs_line_before :
  is_successful_result
    (mkProcResult mypy
       (lit "Found 1 error in 1 file (checked 3 source files)" ++ [nl]) [] 1)
  = false.
Proof. vm_compute. reflexivity. Qed.

(* ------------------------------------------------------------------ *)
(** ** The claims *)

(** C1.  [is_successful_result] returns [True] for exactly the results
    whose exit code is 0 or 1, whose stderr is empty and whose stdout
    matches one of the two patterns: the success line, which is then the
    whole output, or the summary footer at the end of the output.  For
    every other result it returns [False]. *)
Theorem classifier_exact (r : ProcResult) :
  (is_successful_result r = true <->
     (exit_code r = 0%Z \/ exit_code r = 1%Z) /\ stderr r = [] /\
     (success_line (stdout r) \/ summary_footer (stdout r)))
  /\
  (is_successful_result r = false <->
     ~ ((exit_code r = 0%Z \/ exit_code r = 1%Z) /\ stderr r = [] /\
        (success_line (stdout r) \/ summary_footer (stdout r)))).
Proof.
  assert (E : is_successful_result r = true <->
     (exit_code r = 0%Z \/ exit_code r = 1%Z) /\ stderr r = [] /\
     (success_line (stdout r) \/ summary_footer (stdout r))).
  { unfold is_successful_result.
    rewrite <- search_NO_ERRORS, <- search_WITH_ERRORS, <- !Z.eqb_eq, <- !orb_true_iff.
    destruct ((exit_code r =? 0)%Z || (exit_code r =? 1)%Z); simpl;
      [|split; [discriminate|intros [H _]; discriminate]].
    destruct (stderr r) as [|c e]; simpl;
      [|split; [discriminate|intros (_ & H & _); discriminate]].
    destruct (search NO_ERRORS_RE (stdout r) || search WITH_ERRORS_RE (stdout r));
      split; intros; try discriminate; try easy. }
  split; [exact E|].
  rewrite <- E. destruct (is_successful_result r); split; intros; congruence.
Qed.

(** C2, as the claim has it: whatever the daemon's task does after the
    one-shot task has finished first, the one-shot result is reported.
    This fails: the daemon's task can end with an exception inside the
    grace period, [wait_for] re-raises it, and only [TimeoutError] is
    caught. *)
Lemma grace_failure_not_discarded :
  ~ (forall env ds so se sc,
        tl (argv env) <> [] ->
        proc env mypy = Exits ds (Some so) (Some se) sc ->
        0 <= ds ->
        not_by (proc env dmypy) ds ->
        reports (run env) (mkProcResult mypy so se sc)).
Proof.
  intros H.
  specialize (H env_daemon_garbles 2 clean_output [] 0%Z).
  destruct H as [Hexit _].
  - discriminate.
  - reflexivity.
  - discriminate.
  - reflexivity.
  - rewrite run_daemon_garbles in Hexit. discriminate Hexit.
Qed.

(** C2, amended.  If the one-shot task finishes first, and the daemon's
    task either returns a result inside the grace period (any result), or
    does not finish inside it, then the one-shot result is reported; the
    coordinator waits for the daemon with a timeout of 1 and exits no
    later than 1 after the one-shot task finished; if the grace period
    runs out the daemon's task is cancelled; no kill command is run. *)
Theorem one_shot_first_reported env ds so se sc :
  tl (argv env) <> [] ->
  proc env mypy = Exits ds (Some so) (Some se) sc ->
  0 <= ds ->
  not_by (proc env dmypy) ds ->
  quiet_in_grace (proc env dmypy) ds ->
  exists tr t,
    run env = Stopped tr t (Exit sc) /\
    reports (run env) (mkProcResult mypy so se sc) /\
    In (WaitFor DaemonTask (Some 1)) tr /\
    t <= ds + 1 /\
    (outlasts_grace (proc env dmypy) ds -> In (Cancel DaemonTask) tr) /\
    launches tr = [dmypy; mypy].
Proof.
  intros Ha Hs H0 Hnb Hq.
  assert (Hrace : exists tr t,
    race env (tl (argv env)) 0 = Done tr t (mkProcResult mypy so se sc) /\
    t <= ds + 1 /\
    In (WaitFor DaemonTask (Some 1)) tr /\
    (outlasts_grace (proc env dmypy) ds -> In (Cancel DaemonTask) tr) /\
    launches tr = [dmypy; mypy] /\ stdout_of tr = [] /\ stderr_of tr = []).
  { destruct (proc env dmypy) as [|dd out err c|] eqn:Hd.
    - cbn in Hnb. lra.
    - cbn in Hnb, Hq. destruct (Qlt_le_dec dd (ds + 1)) as [Hin|Hout].
      + destruct (Hq Hin) as [Ho He].
        destruct out as [o|]; [|congruence]. destruct err as [e|]; [|congruence].
        destruct (race_sync_first_in_time env (tl (argv env)) Hs Hd H0 Hnb Hin)
          as (t & Hr & Ht).
        do 2 eexists. split; [exact Hr|]. split; [exact Ht|].
        split; [cbn; tauto|]. split; [|repeat split].
        unfold outlasts_grace. cbn. intros. lra.
      + destruct (race_sync_first_timeout env (tl (argv env)) Hs H0) as (t & Hr & Ht).
        { unfold outlasts_grace. rewrite Hd. exact Hout. }
        do 2 eexists. split; [exact Hr|]. split; [exact Ht|].
        split; [cbn; tauto|]. split; [cbn; tauto|repeat split].
    - destruct (race_sync_first_timeout env (tl (argv env)) Hs H0) as (t & Hr & Ht).
      { unfold outlasts_grace. now rewrite Hd. }
      do 2 eexists. split; [exact Hr|]. split; [exact Ht|].
      split; [cbn; tauto|]. split; [cbn; tauto|repeat split]. }
  destruct Hrace as (tr & t & Hr & Ht & Hw & Hc & Hl & Ho & He).
  rewrite (run_Done env Ha Hr).
  exists (tr ++ report_events (mkProcResult mypy so se sc)), t.
  split; [reflexivity|]. split; [now apply reports_intro|].
  split; [apply in_or_app; now left|]. split; [exact Ht|].
  split; [intros H; apply in_or_app; left; now apply Hc|].
  now rewrite launches_app, launches_report, app_nil_r.
Qed.

Lemma one_shot_first_reported_witness :
  exists tr t,
    run env_daemon_hangs = Stopped tr t (Exit 0) /\
    reports (run env_daemon_hangs) (mkProcResult mypy clean_output [] 0) /\
    In (WaitFor DaemonTask (Some 1)) tr /\
    t <= 2 + 1 /\
    (outlasts_grace (proc env_daemon_hangs dmypy) 2 -> In (Cancel DaemonTask) tr) /\
    launches tr = [dmypy; mypy].
Proof.
  apply (@one_shot_first_reported env_daemon_hangs 2 clean_output [] 0%Z).
  - discriminate.
  - reflexivity.
  - discriminate.
  - exact I.
  - exact I.
Defined.

(** C3.  If the daemon's task finishes first with a result that the
    classifier rejects, the kill command is launched at once and awaited;
    when it has returned the one-shot task is awaited with no timeout and
    the one-shot result is reported, so that the invocation exits no
    earlier than the kill command and the one-shot checker have finished,
    however long the latter takes.  Nothing else can be reported on this
    path: if the invocation exits at all, the kill command had returned
    and what was reported is the one-shot result. *)
Theorem untrusted_daemon_falls_back env dd o e c :
  tl (argv env) <> [] ->
  proc env dmypy = Exits dd (Some o) (Some e) c ->
  not_before (proc env mypy) dd ->
  is_successful_result (mkProcResult dmypy o e c) = false ->
  (exists rest,
      trace_of (run env) =
      launch_events env (tl (argv env)) ++
      [Log WARNING (DmypyExited c e o); Exec kill (kill_cmd env)] ++ rest)
  /\
  (forall dk ko ke kc ds so se sc,
      proc env kill = Exits dk (Some ko) (Some ke) kc ->
      proc env mypy = Exits ds (Some so) (Some se) sc ->
      exists t,
        run env =
          Stopped (launch_events env (tl (argv env)) ++
                   [Log WARNING (DmypyExited c e o); Exec kill (kill_cmd env);
                    kill_log kc ke; WaitFor SyncTask None] ++
                   report_events (mkProcResult mypy so se sc))
                  t (Exit sc) /\
        reports (run env) (mkProcResult mypy so se sc) /\
        dd + dk <= t /\ ds <= t)
  /\
  (forall code,
      exit_status (run env) = Some code ->
      exists r,
        produced_by env mypy r /\ reports (run env) r /\
        exists dk ko ke kc, proc env kill = Exits dk (Some ko) (Some ke) kc).
Proof.
  intros Ha Hd Hs Hbad.
  destruct (race_daemon_untrusted_shape env (tl (argv env)) Hd Hs Hbad)
    as (rest & t & [(r & Hr & Hp & Hk & Ho & He)|(w & Hr & Hw & Ho & He)]).
  - split; [|split].
    + rewrite (run_Done env Ha Hr). cbn [trace_of].
      exists (rest ++ report_events r). now rewrite <- !app_assoc.
    + intros dk ko ke kc ds so se sc Hkill Hm.
      assert (Hle : dd <= ds) by (unfold not_before in Hs; now rewrite Hm in Hs).
      destruct (race_daemon_untrusted env (tl (argv env)) Hd Hm Hkill Hle Hbad)
        as (t' & Hr' & Ht1 & Ht2).
      exists t'. rewrite (run_Done env Ha Hr'), <- app_assoc.
      split; [reflexivity|]. split; [|split; assumption].
      rewrite app_assoc. apply reports_intro; unfold kill_log;
        destruct (negb (kc =? 0)%Z || truthy ke); reflexivity.
    + intros code _. exists r. split; [exact Hp|]. split; [|exact Hk].
      rewrite (run_Done env Ha Hr). apply reports_intro.
      * rewrite !stdout_of_app, Ho. reflexivity.
      * rewrite !stderr_of_app, He. reflexivity.
  - split; [|split].
    + rewrite (run_Stopped env Ha Hr). cbn [trace_of]. now exists rest.
    + intros dk ko ke kc ds so se sc Hkill Hm.
      assert (Hle : dd <= ds) by (unfold not_before in Hs; now rewrite Hm in Hs).
      destruct (race_daemon_untrusted env (tl (argv env)) Hd Hm Hkill Hle Hbad)
        as (t' & Hr' & _).
      rewrite Hr' in Hr. discriminate Hr.
    + intros code Hexit. rewrite (run_Stopped env Ha Hr) in Hexit.
      destruct Hw as [->|[->| ->]]; discriminate Hexit.
Qed.

Lemma untrusted_daemon_falls_back_witness :
  (exists rest,
      trace_of (run env_daemon_crashes) =
      launch_events env_daemon_crashes (tl (argv env_daemon_crashes)) ++
      [Log WARNING (DmypyExited 2 (lit "Daemon crashed!") []);
       Exec kill (kill_cmd env_daemon_crashes)] ++ rest)
  /\
  (forall dk ko ke kc ds so se sc,
      proc env_daemon_crashes kill = Exits dk (Some ko) (Some ke) kc ->
      proc env_daemon_crashes mypy = Exits ds (Some so) (Some se) sc ->
      exists t,
        run env_daemon_crashes =
          Stopped (launch_events env_daemon_crashes (tl (argv env_daemon_crashes)) ++
                   [Log WARNING (DmypyExited 2 (lit "Daemon crashed!") []);
                    Exec kill (kill_cmd env_daemon_crashes);
                    kill_log kc ke; WaitFor SyncTask None] ++
                   report_events (mkProcResult mypy so se sc))
                  t (Exit sc) /\
        reports (run env_daemon_crashes) (mkProcResult mypy so se sc) /\
        (1 # 2) + dk <= t /\ ds <= t)
  /\
  (forall code,
      exit_status (run env_daemon_crashes) = Some code ->
      exists r,
        produced_by env_daemon_crashes mypy r /\
        reports (run env_daemon_crashes) r /\
        exists dk ko ke kc,
          proc env_daemon_crashes kill = Exits dk (Some ko) (Some ke) kc).
Proof.
  apply (@untrusted_daemon_falls_back env_daemon_crashes
           (1 # 2) [] (lit "Daemon crashed!") 2%Z).
  - discriminate.
  - reflexivity.
  - discriminate.
  - reflexivity.
Defined.

(** C4.  If the daemon's task finishes first with a result that the
    classifier accepts, the one-shot task is cancelled and the daemon's
    result is reported: its stdout, its stderr and its exit code. *)
Theorem trusted_daemon_reported env dd o e c :
  tl (argv env) <> [] ->
  proc env dmypy = Exits dd (Some o) (Some e) c ->
  not_before (proc env mypy) dd ->
  is_successful_result (mkProcResult dmypy o e c) = true ->
  exists t,
    run env =
      Stopped (launch_events env (tl (argv env)) ++
               [Log DEBUG (DmypyFinished c); Cancel SyncTask] ++
               report_events (mkProcResult dmypy o e c))
              t (Exit c) /\
    reports (run env) (mkProcResult dmypy o e c) /\
    In (Cancel SyncTask) (trace_of (run env)) /\
    launches (trace_of (run env)) = [dmypy; mypy].
Proof.
  intros Ha Hd Hs Hok.
  destruct (race_daemon_trusted env (tl (argv env)) Hd Hs Hok) as (t & Hr).
  exists t. rewrite (run_Done env Ha Hr), <- app_assoc.
  split; [reflexivity|]. rewrite app_assoc.
  split; [now apply reports_intro|].
  split.
  - cbn [trace_of]. apply in_or_app. left. cbn. tauto.
  - cbn [trace_of]. now rewrite launches_app, launches_report.
Qed.

Lemma trusted_daemon_reported_witness :
  exists t,
    run env_daemon_wins =
      Stopped (launch_events env_daemon_wins (tl (argv env_daemon_wins)) ++
               [Log DEBUG (DmypyFinished 0); Cancel SyncTask] ++
               report_events (mkProcResult dmypy clean_output [] 0))
              t (Exit 0) /\
    reports (run env_daemon_wins) (mkProcResult dmypy clean_output [] 0) /\
    In (Cancel SyncTask) (trace_of (run env_daemon_wins)) /\
    launches (trace_of (run env_daemon_wins)) = [dmypy; mypy].
Proof.
  apply (@trusted_daemon_reported env_daemon_wins (1 # 2) clean_output [] 0%Z).
  - discriminate.
  - reflexivity.
  - discriminate.
  - vm_compute. reflexivity.
Defined.

(** C5, as the claim has it: the process exits with the exit code of the
    reported result.  This fails for a code outside 0..255: a one-shot
    checker killed by signal 9 has exit code -9, which is reported
    without being classified, and the process that calls [sys.exit(-9)]
    ends with status 247. *)
Lemma exit_status_is_truncated :
  ~ (forall env tr0 t r,
        tl (argv env) <> [] ->
        race env (tl (argv env)) 0 = Done tr0 t r ->
        process_exit_status (run env) = Some (exit_code r)).
Proof.
  intros H.
  specialize (H env_mypy_killed
                (launch_events env_mypy_killed (tl sample_argv) ++
                 [Log DEBUG MypyFinishedFirst; WaitFor DaemonTask (Some 1);
                  Log DEBUG TimeoutWaiting; Cancel DaemonTask])
                3 (mkProcResult mypy [] [] (-9))).
  rewrite run_mypy_killed in H. cbn in H.
  assert (E : Some (process_status (-9)) = Some (-9)%Z).
  { apply H; [discriminate|]. vm_compute. reflexivity. }
  discriminate E.
Qed.

(** C5, amended.  Whatever result the race hands to the reporter, the
    invocation writes that result's stdout to standard output and
    nothing else, writes the line [STDERR:] followed by the result's
    stderr with [sys.stderr.write] exactly when that stderr is not empty
    (and makes no such write otherwise), and calls [sys.exit] with the
    result's exit code: the process ends with that code modulo 256, which
    is the code itself when it lies in 0..255. *)
Theorem reporter_faithful env tr0 t r :
  tl (argv env) <> [] ->
  race env (tl (argv env)) 0 = Done tr0 t r ->
  exists tr,
    run env = Stopped tr t (Exit (exit_code r)) /\
    stdout_of tr = stdout r /\
    stderr_of tr = stderr_report r /\
    (In (StderrWrite (lit "STDERR:" ++ [nl])) tr <-> stderr r <> []) /\
    (forall now, report r now = Stopped (report_events r) now (Exit (exit_code r))) /\
    process_exit_status (run env) = Some (exit_code r mod 256)%Z /\
    ((0 <= exit_code r < 256)%Z -> process_exit_status (run env) = Some (exit_code r)).
Proof.
  intros Ha Hr. destruct (race_Done_silent _ _ Hr) as (Ho & He & _).
  exists (tr0 ++ report_events r). rewrite (run_Done env Ha Hr).
  split; [reflexivity|].
  split; [now rewrite stdout_of_app, Ho, stdout_of_report|].
  split; [now rewrite stderr_of_app, He, stderr_of_report|].
  split; [|split; [intros; apply report_eq|]].
  - split.
    + intros Hin. apply in_app_or in Hin. destruct Hin as [Hin|Hin].
      * apply (stderr_of_nil_no_marker tr0 _ He) in Hin. discriminate Hin.
      * unfold report_events in Hin. destruct (stderr r); [|discriminate].
        cbn in Hin. destruct Hin as [Hin|[]]. discriminate Hin.
    + intros Hne. apply in_or_app. right. unfold report_events.
      destruct (stderr r); [congruence|]. cbn. tauto.
  - cbn [process_exit_status]. unfold process_status. split; [reflexivity|].
    intros Hrange. now rewrite Z.mod_small.
Qed.

Lemma reporter_faithful_witness :
  exists tr,
    run env_mypy_killed = Stopped tr 3 (Exit (-9)) /\
    stdout_of tr = [] /\
    stderr_of tr = [] /\
    (In (StderrWrite (lit "STDERR:" ++ [nl])) tr <-> @nil char <> []) /\
    (forall now,
        report (mkProcResult mypy [] [] (-9)) now =
        Stopped (report_events (mkProcResult mypy [] [] (-9))) now (Exit (-9))) /\
    process_exit_status (run env_mypy_killed) = Some 247%Z /\
    ((0 <= -9 < 256)%Z -> process_exit_status (run env_mypy_killed) = Some (-9)%Z).
Proof.
  apply (@reporter_faithful env_mypy_killed
           (launch_events env_mypy_killed (tl sample_argv) ++
            [Log DEBUG MypyFinishedFirst; WaitFor DaemonTask (Some 1);
             Log DEBUG TimeoutWaiting; Cancel DaemonTask])
           3 (mkProcResult mypy [] [] (-9))).
  - discriminate.
  - vm_compute. reflexivity.
Defined.

(** C6.  With no arguments the invocation prints [No args!], exits with
    code 1 and launches no process: neither checker and no kill
    command. *)
Theorem no_args_usage env :
  tl (argv env) = [] ->
  run env = Stopped [StdoutWrite (lit "No args!" ++ [nl])] 0 (Exit 1) /\
  stdout_of (trace_of (run env)) = lit "No args!" ++ [nl] /\
  exit_status (run env) = Some 1%Z /\
  launches (trace_of (run env)) = [].
Proof.
  intros Ha. unfold run, inner_main. rewrite Ha. repeat split.
Qed.

Lemma no_args_usage_witness :
  run env_no_args = Stopped [StdoutWrite (lit "No args!" ++ [nl])] 0 (Exit 1) /\
  stdout_of (trace_of (run env_no_args)) = lit "No args!" ++ [nl] /\
  exit_status (run env_no_args) = Some 1%Z /\
  launches (trace_of (run env_no_args)) = [].
Proof. apply (@no_args_usage env_no_args). reflexivity. Defined.





(** C9.  The classifier looks at stdout, stderr and the exit code only:
    two results that agree on these get the same verdict, whatever their
    kinds. *)
Theorem classifier_ignores_kind (r1 r2 : ProcResult) :
  stdout r1 = stdout r2 ->
  stderr r1 = stderr r2 ->
  exit_code r1 = exit_code r2 ->
  is_successful_result r1 = is_successful_result r2.
Proof.
  intros Ho He Hc. unfold is_successful_result. now rewrite Ho, He, Hc.
Qed.

Lemma classifier_ignores_kind_witness :
  is_successful_result (mkProcResult mypy clean_output [] 0) =
  is_successful_result (mkProcResult kill clean_output [] 0).
Proof. apply classifier_ignores_kind; reflexivity. Defined.

(** C10, as the claim has it: whatever way the kill command fails, its
    failure is only logged and the one-shot result is reported.  This
    fails when the kill command exits with a non-zero code and a stderr
    that cannot be decoded: [wait_process_results] raises in
    [kill_mypy], nothing catches it, and the one-shot task is never
    awaited. *)
Lemma kill_failure_can_be_fatal :
  ~ (forall env dd o e c dk ko ke kc ds so se sc,
        tl (argv env) <> [] ->
        proc env dmypy = Exits dd (Some o) (Some e) c ->
        proc env mypy = Exits ds (Some so) (Some se) sc ->
        proc env kill = Exits dk ko ke kc ->
        dd <= ds ->
        is_successful_result (mkProcResult dmypy o e c) = false ->
        kc <> 0%Z \/ ke <> Some [] ->
        reports (run env) (mkProcResult mypy so se sc)).
Proof.
  intros H.
  destruct (H env_kill_garbles (1 # 2) [] (lit "Daemon crashed!") 2%Z
              (1 # 10) (Some []) None 1%Z 2 clean_output [] 0%Z) as [Hexit _].
  - discriminate.
  - reflexivity.
  - reflexivity.
  - reflexivity.
  - discriminate.
  - reflexivity.
  - left. discriminate.
  - rewrite run_kill_garbles in Hexit. discriminate Hexit.
Qed.

(** C10, amended.  A kill command that returns, with output that can be
    decoded, an exit code other than 0 or a non-empty stderr is logged as
    a warning and nothing more: [kill_mypy] returns, the coordinator goes
    on to await the one-shot task, and the one-shot result is reported as
    it is. *)
Theorem kill_failure_only_logged env dd o e c dk ko ke kc ds so se sc :
  tl (argv env) <> [] ->
  proc env dmypy = Exits dd (Some o) (Some e) c ->
  proc env mypy = Exits ds (Some so) (Some se) sc ->
  proc env kill = Exits dk (Some ko) (Some ke) kc ->
  dd <= ds ->
  is_successful_result (mkProcResult dmypy o e c) = false ->
  kc <> 0%Z \/ ke <> [] ->
  (forall now,
      kill_mypy env now =
      Done [Exec kill (kill_cmd env); Log WARNING (FailedToKill kc ke)]
           (later now (now + dk)) tt) /\
  In (Log WARNING (FailedToKill kc ke)) (trace_of (run env)) /\
  In (WaitFor SyncTask None) (trace_of (run env)) /\
  reports (run env) (mkProcResult mypy so se sc).
Proof.
  intros Ha Hd Hs Hk Hle Hbad Hfail.
  assert (Hlog : kill_log kc ke = Log WARNING (FailedToKill kc ke)).
  { unfold kill_log. destruct Hfail as [Hc|He].
    - apply Z.eqb_neq in Hc. now rewrite Hc.
    - destruct ke; [congruence|]. cbn. now rewrite orb_true_r. }
  split.
  - intros now. unfold kill_mypy, bind. rewrite wait_process_results_eq, Hk.
    cbn [proc_step prepend exit_code stderr app].
    unfold kill_log in Hlog.
    destruct (negb (kc =? 0)%Z || truthy ke); [reflexivity|discriminate Hlog].
  - destruct (race_daemon_untrusted env (tl (argv env)) Hd Hs Hk Hle Hbad)
      as (t & Hr & _).
    rewrite (run_Done env Ha Hr), Hlog. cbn [trace_of].
    split; [apply in_or_app; left; apply in_or_app; right; cbn; tauto|].
    split; [apply in_or_app; left; apply in_or_app; right; cbn; tauto|].
    now apply reports_intro.
Qed.

Lemma kill_failure_only_logged_witness :
  (forall now,
      kill_mypy env_daemon_crashes now =
      Done [Exec kill (kill_cmd env_daemon_crashes);
            Log WARNING (FailedToKill 2 (lit "No status file"))]
           (later now (now + (1 # 10))) tt) /\
  In (Log WARNING (FailedToKill 2 (lit "No status file")))
     (trace_of (run env_daemon_crashes)) /\
  In (WaitFor SyncTask None) (trace_of (run env_daemon_crashes)) /\
  reports (run env_daemon_crashes) (mkProcResult mypy clean_output [] 0).
Proof.
  apply (@kill_failure_only_logged env_daemon_crashes
           (1 # 2) [] (lit "Daemon crashed!") 2%Z
           (1 # 10) [] (lit "No status file") 2%Z
           2 clean_output [] 0%Z).
  - discriminate.
  - reflexivity.
  - reflexivity.
  - reflexivity.
  - discriminate.
  - reflexivity.
  - left. discriminate.
Defined.

(* ------------------------------------------------------------------ *)
(** ** Further properties of the code *)

(** *** The race, in every environment *)

Lemma race_facts env args :
  (exists rest,
      trace_of (race env args 0) = launch_events env args ++ rest /\
      (launches rest = [] \/
       (launches rest = [kill] /\
        exists dd o e c,
          proc env dmypy = Exits dd (Some o) (Some e) c /\
          is_successful_result (mkProcResult dmypy o e c) = false)))
  /\
  (forall tr t r,
      race env args 0 = Done tr t r -> type r = dmypy ->
      is_successful_result r = true /\ launches tr = [dmypy; mypy] /\
      stderr_writes tr = []).
Proof.
  race_start.
  destruct (proc env dmypy) as [|dd [o|] [e|] c|] eqn:Hd;
  destruct (proc env mypy) as [|ds [so|] [se|] sc|] eqn:Hs.
  all: crunch.
  all: split;
    [ eexists; split; [reflexivity|];
      first [ left; reflexivity
            | right; split; [reflexivity|];
              do 4 eexists; split; [reflexivity|assumption] ]
    | intros ? ? ? Erace Hty;
      first [ discriminate Erace
            | injection Erace as <- <- <-;
              first [ discriminate Hty
                    | split; [assumption|split; reflexivity] ] ] ].
Qed.

Lemma race_daemon_trusted_time env args dd o e c :
  proc env dmypy = Exits dd (Some o) (Some e) c ->
  not_before (proc env mypy) dd ->
  is_successful_result (mkProcResult dmypy o e c) = true ->
  0 <= dd ->
  exists tr t,
    race env args 0 = Done tr t (mkProcResult dmypy o e c) /\ t == dd.
Proof.
  intros Hd Hs Hok H0. race_start. rewrite Hd. unfold not_before in Hs.
  destruct (proc env mypy) as [|ds [so|] [se|] sc|]; cbn in Hs.
  all: qsolve; rewrite Hok; qsolve.
  all: do 2 eexists; split; [reflexivity|lra].
Qed.

Lemma race_sync_first_in_time_at env args ds so se sc dd o e c :
  proc env mypy = Exits ds (Some so) (Some se) sc ->
  proc env dmypy = Exits dd (Some o) (Some e) c ->
  0 <= ds -> ds < dd -> dd < ds + 1 ->
  exists tr t,
    race env args 0 = Done tr t (mkProcResult mypy so se sc) /\ t == dd.
Proof.
  intros Hs Hd H0 Hlt Hin. race_start. rewrite Hd, Hs.
  qsolve. all: do 2 eexists; split; [reflexivity | lra].
Qed.

Lemma race_sync_first_timeout_at env args ds so se sc :
  proc env mypy = Exits ds (Some so) (Some se) sc ->
  0 <= ds -> outlasts_grace (proc env dmypy) ds ->
  exists tr t,
    race env args 0 = Done tr t (mkProcResult mypy so se sc) /\ t == ds + 1.
Proof.
  intros Hs H0 Hout. race_start. rewrite Hs. unfold outlasts_grace in Hout.
  destruct (proc env dmypy) as [|dd [o|] [e|] c|]; cbn in Hout; try lra.
  all: qsolve.
  all: do 2 eexists; split; [reflexivity | lra].
Qed.

Lemma race_dmypy_launch_fails env args :
  proc env dmypy = LaunchFails ->
  race env args 0 = Stopped (launch_events env args) 0 (Raise OSError).
Proof.
  intros Hd. race_start. rewrite Hd.
  destruct (proc env mypy) as [|ds [so|] [se|] sc|].
  all: qsolve; reflexivity.
Qed.

Lemma race_mypy_launch_fails env args :
  proc env mypy = LaunchFails ->
  not_by (proc env dmypy) 0 ->
  race env args 0 = Stopped (launch_events env args) 0 (Raise OSError).
Proof.
  intros Hs Hnb. race_start. rewrite Hs. unfold not_by in Hnb.
  destruct (proc env dmypy) as [|dd [o|] [e|] c|]; cbn in Hnb; try lra.
  all: qsolve; reflexivity.
Qed.

(** *** The classifier and its two patterns *)

Lemma classifier_true (r : ProcResult) :
  is_successful_result r = true <->
  (exit_code r = 0%Z \/ exit_code r = 1%Z) /\ stderr r = [] /\
  (success_line (stdout r) \/ summary_footer (stdout r)).
Proof.
  unfold is_successful_result.
  rewrite <- search_NO_ERRORS, <- search_WITH_ERRORS, <- !Z.eqb_eq, <- !orb_true_iff.
  destruct ((exit_code r =? 0)%Z || (exit_code r =? 1)%Z); simpl;
    [|split; [discriminate|intros [H _]; discriminate]].
  destruct (stderr r) as [|c e]; simpl;
    [|split; [discriminate|intros (_ & H & _); discriminate]].
  destruct (search NO_ERRORS_RE (stdout r) || search WITH_ERRORS_RE (stdout r));
    split; intros; try discriminate; try easy.
Qed.

Lemma success_line_ends_nl out : success_line out -> exists body, out = body ++ [nl].
Proof.
  intros (n & s & e & _ & _ & [-> | ->] & ->).
  - eexists. rewrite app_nil_r, !app_assoc. reflexivity.
  - exists (lit "Success: no issues found in " ++ n ++ lit " source file" ++ s ++ [nl]).
    now rewrite <- !app_assoc.
Qed.

Lemma summary_footer_ends_nl out : summary_footer out -> exists body, out = body ++ [nl].
Proof.
  intros (pre & n1 & s1 & n2 & s2 & n3 & e & _ & _ & _ & _ & _ & [-> | ->] & ->).
  - eexists. rewrite app_nil_r, !app_assoc. reflexivity.
  - eexists. rewrite !app_assoc. reflexivity.
Qed.

(** X11.  A result that the classifier accepts has a stdout that ends
    with a newline; in particular an empty stdout is never accepted. *)
Theorem trusted_stdout_ends_with_newline (r : ProcResult) :
  is_successful_result r = true ->
  exists body, stdout r = body ++ [nl].
Proof.
  intros H. apply classifier_true in H. destruct H as (_ & _ & [H|H]).
  - now apply success_line_ends_nl.
  - now apply summary_footer_ends_nl.
Qed.

Lemma trusted_stdout_ends_with_newline_witness :
  exists body, stdout (mkProcResult dmypy clean_output [] 0) = body ++ [nl].
Proof.
  apply (@trusted_stdout_ends_with_newline (mkProcResult dmypy clean_output [] 0)).
  reflexivity.
Defined.

(** X12.  The summary footer is looked for at the end of stdout only:
    if a result is accepted for its footer, it is still accepted with any
    text put before its stdout. *)
Theorem footer_ignores_what_precedes (r : ProcResult) (pre : text) :
  is_successful_result r = true ->
  summary_footer (stdout r) ->
  is_successful_result
    (mkProcResult (type r) (pre ++ stdout r) (stderr r) (exit_code r)) = true.
Proof.
  intros H Hf. apply classifier_true in H. destruct H as (Hc & He & _).
  apply classifier_true. cbn. split; [exact Hc|]. split; [exact He|]. right.
  destruct Hf as (p & n1 & s1 & n2 & s2 & n3 & e & H1 & P1 & H2 & P2 & H3 & Ht & ->).
  exists (pre ++ p), n1, s1, n2, s2, n3, e. rewrite <- app_assoc. auto 10.
Qed.

Lemma footer_ignores_what_precedes_witness :
  is_successful_result
    (mkProcResult dmypy (lit "warning: stale cache" ++ [nl] ++ errors_output) [] 1)
  = true.
Proof.
  apply (@footer_ignores_what_precedes (mkProcResult dmypy errors_output [] 1)
           (lit "warning: stale cache" ++ [nl])).
  - vm_compute. reflexivity.
  - apply search_WITH_ERRORS. vm_compute. reflexivity.
Defined.

Lemma digit_not c x : is_digit c = true -> is_digit x = false -> c <> x.
Proof. intros H1 H2 ->. congruence. Qed.

Lemma digits_count (n : text) (x : char) :
  forallb is_digit n = true -> is_digit x = false ->
  @count_occ char N.eq_dec n x = 0%nat.
Proof.
  intros Hn Hx. induction n as [|c n IH]; [reflexivity|].
  simpl in Hn. apply andb_true_iff in Hn. destruct Hn as [Hc Hn].
  simpl. destruct (N.eq_dec c x) as [->|_]; [congruence|]. now apply IH.
Qed.

Lemma digits_no_nl n : forallb is_digit n = true -> no_nl n = true.
Proof.
  intros Hn. induction n as [|c n IH]; [reflexivity|].
  simpl in Hn. apply andb_true_iff in Hn. destruct Hn as [Hc Hn].
  simpl. rewrite (IH Hn), andb_true_r.
  destruct (c =? nl)%N eqn:E; [|reflexivity].
  apply N.eqb_eq in E. subst c. discriminate Hc.
Qed.

Lemma no_nl_app a b : no_nl (a ++ b) = no_nl a && no_nl b.
Proof. apply forallb_app. Qed.

Lemma success_line_body out :
  success_line out ->
  exists body e, out = body ++ nl :: e /\ no_nl body = true /\ trailer e /\
                 @count_occ char N.eq_dec out 83%N = 1%nat /\
                 exists rest, out = 83%N :: rest.
Proof.
  intros (n & s & e & [_ Hn] & Hs & He & ->).
  exists (lit "Success: no issues found in " ++ n ++ lit " source file" ++ s), e.
  split; [now rewrite <- !app_assoc|].
  split; [|split; [exact He|split]].
  - rewrite !no_nl_app, (digits_no_nl n Hn).
    destruct Hs as [-> | ->]; reflexivity.
  - rewrite !count_occ_app, (digits_count n 83%N Hn eq_refl).
    destruct Hs as [-> | ->]; destruct He as [-> | ->]; reflexivity.
  - eexists. reflexivity.
Qed.

Lemma split_at_first_nl : forall b b' x y,
  no_nl b = true -> no_nl b' = true ->
  b ++ nl :: x = b' ++ nl :: y -> b = b' /\ x = y.
Proof.
  induction b as [|c b IH]; intros [|c' b'] x y Hb Hb' E; simpl in *.
  - injection E as ->. now split.
  - injection E as <- _. discriminate Hb'.
  - injection E as -> _. discriminate Hb.
  - injection E as -> E.
    apply andb_true_iff in Hb, Hb'. destruct Hb as [_ Hb], Hb' as [_ Hb'].
    destruct (IH b' x y Hb Hb' E) as [-> ->]. now split.
Qed.

(** X13.  The success pattern takes the whole of stdout: around a text
    it matches, nothing can be put before, and nothing after but one
    newline, without losing the match. *)
Theorem success_line_is_whole_output (out pre post : text) :
  search NO_ERRORS_RE out = true ->
  search NO_ERRORS_RE (pre ++ out ++ post) = true ->
  pre = [] /\ (post = [] \/ post = [nl]).
Proof.
  intros Ho Hall. apply search_NO_ERRORS in Ho, Hall.
  apply success_line_body in Ho, Hall.
  destruct Ho as (b & e & Eo & Hb & He & Hc & _).
  destruct Hall as (b' & e' & Ea & Hb' & He' & Hc' & rest & Hhead).
  assert (Hpre : pre = []).
  { rewrite !count_occ_app, Hc in Hc'.
    destruct pre as [|c pre]; [reflexivity|].
    simpl in Hhead. injection Hhead as -> _.
    simpl in Hc'. lia. }
  split; [exact Hpre|]. subst pre. simpl in Ea.
  rewrite Eo, <- app_assoc in Ea. simpl in Ea.
  destruct (split_at_first_nl b b' _ _ Hb Hb' Ea) as [_ E].
  destruct He as [-> | ->], He' as [-> | ->]; simpl in E.
  - now left.
  - now right.
  - discriminate E.
  - injection E as E. now left.
Qed.

Lemma success_line_is_whole_output_witness :
  @nil char = [] /\ ([nl] = [] \/ [nl] = [nl]).
Proof.
  apply (@success_line_is_whole_output clean_output [] [nl]); reflexivity.
Defined.

(** *** The coordinator *)

Lemma race_hangs env args :
  proc env mypy = RunsForever ->
  proc env dmypy = RunsForever \/
  (exists dd o e c dk ko ke kc,
      proc env dmypy = Exits dd (Some o) (Some e) c /\
      is_successful_result (mkProcResult dmypy o e c) = false /\
      proc env kill = Exits dk (Some ko) (Some ke) kc) ->
  exists tr t, race env args 0 = Stopped tr t Hang.
Proof.
  intros Hs [Hd|(dd & o & e & c & dk & ko & ke & kc & Hd & Hbad & Hk)];
    race_start; rewrite Hs, Hd.
  - qsolve. do 2 eexists. reflexivity.
  - qsolve; rewrite Hbad; qsolve; rewrite Hk; crunch.
    all: do 2 eexists; reflexivity.
Qed.

Lemma run_trace env :
  tl (argv env) <> [] ->
  exists tail,
    trace_of (run env) = trace_of (race env (tl (argv env)) 0) ++ tail /\
    launches tail = [] /\
    (forall tr t w, race env (tl (argv env)) 0 = Stopped tr t w -> tail = []).
Proof.
  intros Ha. destruct (race env (tl (argv env)) 0) as [tr t r|tr t w] eqn:E.
  - exists (report_events r). rewrite (run_Done env Ha E).
    split; [reflexivity|]. split; [apply launches_report|]. discriminate.
  - exists []. rewrite (run_Stopped env Ha E), app_nil_r. repeat split.
Qed.

Lemma run_no_args env :
  tl (argv env) = [] ->
  run env = Stopped [StdoutWrite (lit "No args!" ++ [nl])] 0 (Exit 1).
Proof. intros Ha. unfold run, inner_main. now rewrite Ha. Qed.

(** X1.  With at least one argument both checkers are always started,
    the daemon's client first, each with the arguments as given: [dmypy]
    after [run --], [mypy] directly.  The only other process an
    invocation can start is one kill command. *)
Theorem both_checkers_always_launched env :
  tl (argv env) <> [] ->
  exists rest,
    trace_of (run env) =
      [Log DEBUG LaunchingDmypy;
       Exec dmypy (script_path env (lit "dmypy") :: lit "run" :: lit "--"
                   :: tl (argv env));
       Log DEBUG LaunchingMypy;
       Exec mypy (script_path env (lit "mypy") :: tl (argv env));
       AwaitFirst [DaemonTask; SyncTask]] ++ rest /\
    (launches rest = [] \/ launches rest = [kill]).
Proof.
  intros Ha. destruct (run_trace env Ha) as (tail & Et & Hl & _).
  destruct (race_facts env (tl (argv env))) as [(rest & Er & Hk) _].
  exists (rest ++ tail). rewrite Et, Er, <- app_assoc. split; [reflexivity|].
  rewrite launches_app, Hl, app_nil_r. destruct Hk as [Hk|[Hk _]]; auto.
Qed.

Lemma both_checkers_always_launched_witness :
  exists rest,
    trace_of (run env_no_dmypy) =
      [Log DEBUG LaunchingDmypy;
       Exec dmypy (script_path env_no_dmypy (lit "dmypy") :: lit "run" :: lit "--"
                   :: tl (argv env_no_dmypy));
       Log DEBUG LaunchingMypy;
       Exec mypy (script_path env_no_dmypy (lit "mypy") :: tl (argv env_no_dmypy));
       AwaitFirst [DaemonTask; SyncTask]] ++ rest /\
    (launches rest = [] \/ launches rest = [kill]).
Proof. apply (@both_checkers_always_launched env_no_dmypy). discriminate. Defined.

(** X2.  A kill command is launched only if the daemon's client returned
    a result and the classifier rejected it. *)
Theorem kill_only_after_untrusted_daemon env :
  In kill (launches (trace_of (run env))) ->
  exists dd o e c,
    proc env dmypy = Exits dd (Some o) (Some e) c /\
    is_successful_result (mkProcResult dmypy o e c) = false.
Proof.
  intros Hin. destruct (tl (argv env)) as [|a args] eqn:Ea.
  - rewrite (run_no_args env Ea) in Hin. destruct Hin.
  - assert (Ha : tl (argv env) <> []) by (rewrite Ea; discriminate).
    destruct (run_trace env Ha) as (tail & Et & Hl & _).
    destruct (race_facts env (tl (argv env))) as [(rest & Er & Hk) _].
    rewrite Et, Er, !launches_app, Hl, app_nil_r in Hin.
    destruct Hk as [Hk|[_ Hk]]; [|exact Hk].
    rewrite Hk in Hin. cbn in Hin. intuition discriminate.
Qed.

Lemma kill_only_after_untrusted_daemon_witness :
  exists dd o e c,
    proc env_daemon_crashes dmypy = Exits dd (Some o) (Some e) c /\
    is_successful_result (mkProcResult dmypy o e c) = false.
Proof.
  apply (@kill_only_after_untrusted_daemon env_daemon_crashes).
  vm_compute. tauto.
Defined.

(** X3.  Whenever it is the daemon's result that is reported, that
    result has exit code 0 or 1, which is then also the exit status of
    the process, and an empty stderr, so that the reporter never calls
    [sys.stderr.write]; the invocation has launched the two checkers and
    no kill command. *)
Theorem reported_daemon_result_is_clean env tr t r :
  tl (argv env) <> [] ->
  race env (tl (argv env)) 0 = Done tr t r ->
  type r = dmypy ->
  (exit_code r = 0%Z \/ exit_code r = 1%Z) /\
  process_exit_status (run env) = Some (exit_code r) /\
  stderr r = [] /\
  stderr_writes (trace_of (run env)) = [] /\
  launches (trace_of (run env)) = [dmypy; mypy].
Proof.
  intros Ha Hr Hty.
  destruct (race_facts env (tl (argv env))) as [_ H].
  destruct (H tr t r Hr Hty) as (Hok & Hl & Hw).
  apply classifier_true in Hok. destruct Hok as (Hc & Herr & _).
  rewrite (run_Done env Ha Hr). cbn [process_exit_status trace_of].
  split; [exact Hc|].
  split; [destruct Hc as [-> | ->]; reflexivity|].
  split; [exact Herr|].
  split.
  - unfold stderr_writes in *. rewrite flat_map_app, Hw.
    unfold report_events. rewrite Herr. reflexivity.
  - now rewrite launches_app, launches_report, app_nil_r.
Qed.

Lemma reported_daemon_result_is_clean_witness :
  (0 = 0 \/ 0 = 1)%Z /\
  process_exit_status (run env_daemon_wins) = Some 0%Z /\
  @nil char = [] /\
  stderr_writes (trace_of (run env_daemon_wins)) = [] /\
  launches (trace_of (run env_daemon_wins)) = [dmypy; mypy].
Proof.
  apply (@reported_daemon_result_is_clean env_daemon_wins
           (launch_events env_daemon_wins (tl sample_argv) ++
            [Log DEBUG (DmypyFinished 0); Cancel SyncTask])
           (0 + (1 # 2)) (mkProcResult dmypy clean_output [] 0)).
  - discriminate.
  - vm_compute. reflexivity.
  - reflexivity.
Defined.

(** X5.  A daemon result that the classifier accepts is reported at the
    moment the daemon's client exits: the invocation does not wait for
    the one-shot checker. *)
Theorem trusted_daemon_not_delayed env dd o e c :
  tl (argv env) <> [] ->
  proc env dmypy = Exits dd (Some o) (Some e) c ->
  not_before (proc env mypy) dd ->
  is_successful_result (mkProcResult dmypy o e c) = true ->
  0 <= dd ->
  exists tr t, run env = Stopped tr t (Exit c) /\ t == dd.
Proof.
  intros Ha Hd Hs Hok H0.
  destruct (race_daemon_trusted_time env (tl (argv env)) Hd Hs Hok H0)
    as (tr & t & Hr & Ht).
  rewrite (run_Done env Ha Hr). do 2 eexists. split; [reflexivity|exact Ht].
Qed.

Lemma trusted_daemon_not_delayed_witness :
  exists tr t, run env_daemon_wins = Stopped tr t (Exit 0) /\ t == 1 # 2.
Proof.
  apply (@trusted_daemon_not_delayed env_daemon_wins (1 # 2) clean_output [] 0%Z).
  - discriminate.
  - reflexivity.
  - discriminate.
  - reflexivity.
  - discriminate.
Defined.

(** X6.  When the one-shot checker finishes first, its result is not
    reported at once: the invocation exits when the daemon's client
    exits, if that is within the grace period, and otherwise exactly 1
    after the one-shot checker finished. *)
Theorem one_shot_result_is_delayed env ds so se sc :
  tl (argv env) <> [] ->
  proc env mypy = Exits ds (Some so) (Some se) sc ->
  0 <= ds ->
  not_by (proc env dmypy) ds ->
  quiet_in_grace (proc env dmypy) ds ->
  exists tr t,
    run env = Stopped tr t (Exit sc) /\ ds < t /\
    ((outlasts_grace (proc env dmypy) ds /\ t == ds + 1)
     \/ (exists dd, finishes_at (proc env dmypy) = Some dd /\ dd < ds + 1 /\ t == dd)).
Proof.
  intros Ha Hs H0 Hnb Hq.
  assert (Hrace : exists tr t,
    race env (tl (argv env)) 0 = Done tr t (mkProcResult mypy so se sc) /\ ds < t /\
    ((outlasts_grace (proc env dmypy) ds /\ t == ds + 1)
     \/ (exists dd, finishes_at (proc env dmypy) = Some dd /\ dd < ds + 1 /\ t == dd))).
  { destruct (proc env dmypy) as [|dd out err c|] eqn:Hd.
    - cbn in Hnb. lra.
    - cbn in Hnb, Hq. destruct (Qlt_le_dec dd (ds + 1)) as [Hin|Hout].
      + destruct (Hq Hin) as [Ho He].
        destruct out as [o|]; [|congruence]. destruct err as [e|]; [|congruence].
        destruct (race_sync_first_in_time_at env (tl (argv env)) Hs Hd H0 Hnb Hin)
          as (tr & t & Hr & Ht).
        exists tr, t. split; [exact Hr|]. split; [lra|].
        right. exists dd. cbn. repeat split; assumption.
      + assert (Hg : outlasts_grace (proc env dmypy) ds)
          by (unfold outlasts_grace; rewrite Hd; exact Hout).
        destruct (race_sync_first_timeout_at env (tl (argv env)) Hs H0 Hg)
          as (tr & t & Hr & Ht).
        exists tr, t. split; [exact Hr|]. split; [lra|].
        left. rewrite Hd in Hg. now split.
    - assert (Hg : outlasts_grace (proc env dmypy) ds)
        by (unfold outlasts_grace; now rewrite Hd).
      destruct (race_sync_first_timeout_at env (tl (argv env)) Hs H0 Hg)
        as (tr & t & Hr & Ht).
      exists tr, t. split; [exact Hr|]. split; [lra|].
      left. rewrite Hd in Hg. now split. }
  destruct Hrace as (tr & t & Hr & Hlt & Hcase).
  rewrite (run_Done env Ha Hr). do 2 eexists. split; [reflexivity|]. now split.
Qed.

Lemma one_shot_result_is_delayed_witness :
  exists tr t,
    run env_daemon_hangs = Stopped tr t (Exit 0) /\ 2 < t /\
    ((outlasts_grace (proc env_daemon_hangs dmypy) 2 /\ t == 2 + 1)
     \/ (exists dd, finishes_at (proc env_daemon_hangs dmypy) = Some dd /\
                    dd < 2 + 1 /\ t == dd)).
Proof.
  apply (@one_shot_result_is_delayed env_daemon_hangs 2 clean_output [] 0%Z).
  - discriminate.
  - reflexivity.
  - discriminate.
  - exact I.
  - exact I.
Defined.

(** X7.  A checker that cannot be launched aborts the invocation with the
    launch error at once, and nothing is reported: always so for the
    daemon's client, whatever the one-shot checker would have answered,
    and for the one-shot checker unless the daemon's client is done at
    that very moment. *)
Theorem launch_failure_is_fatal env :
  tl (argv env) <> [] ->
  proc env dmypy = LaunchFails \/
  (proc env mypy = LaunchFails /\ not_by (proc env dmypy) 0) ->
  run env = Stopped (launch_events env (tl (argv env))) 0 (Raise OSError).
Proof.
  intros Ha [Hd|[Hs Hnb]]; apply (run_Stopped env Ha).
  - now apply race_dmypy_launch_fails.
  - now apply race_mypy_launch_fails.
Qed.

Lemma launch_failure_is_fatal_witness :
  run env_no_dmypy =
  Stopped (launch_events env_no_dmypy (tl (argv env_no_dmypy))) 0 (Raise OSError).
Proof.
  apply (@launch_failure_is_fatal env_no_dmypy).
  - discriminate.
  - left. reflexivity.
Defined.

(** X8.  There is no overall timeout: if the one-shot checker never
    finishes, and the daemon's client never finishes either or returns a
    result that the classifier rejects, the invocation never exits. *)
Theorem no_overall_timeout env :
  tl (argv env) <> [] ->
  proc env mypy = RunsForever ->
  proc env dmypy = RunsForever \/
  (exists dd o e c dk ko ke kc,
      proc env dmypy = Exits dd (Some o) (Some e) c /\
      is_successful_result (mkProcResult dmypy o e c) = false /\
      proc env kill = Exits dk (Some ko) (Some ke) kc) ->
  exists tr t, run env = Stopped tr t Hang.
Proof.
  intros Ha Hs Hd. destruct (race_hangs env (tl (argv env)) Hs Hd) as (tr & t & Hr).
  exists tr, t. now apply run_Stopped.
Qed.

Lemma no_overall_timeout_witness :
  exists tr t, run env_both_hang = Stopped tr t Hang.
Proof.
  apply (@no_overall_timeout env_both_hang).
  - discriminate.
  - reflexivity.
  - left. reflexivity.
Defined.

(** X9.  [kill_mypy] logs [dmypy killed] exactly when the kill command
    exits with code 0 and an empty stderr. *)
Theorem kill_mypy_reports_clean_kill env now :
  In (Log INFO DmypyKilled) (trace_of (kill_mypy env now)) <->
  exists dk ko, proc env kill = Exits dk (Some ko) (Some []) 0%Z.
Proof.
  unfold kill_mypy, bind. rewrite wait_process_results_eq.
  destruct (proc env kill) as [|dk [ko|] [ke|] kc|];
    cbn [proc_step prepend trace_of exit_code stderr app].
  2: { destruct (kc =? 0)%Z eqn:Ec; destruct ke as [|x ke]; cbn.
       - apply Z.eqb_eq in Ec. subst kc. split; [eauto|tauto].
       - split; [intuition discriminate|intros (? & ? & [=])].
       - apply Z.eqb_neq in Ec.
         split; [intuition discriminate|intros (? & ? & [=]); congruence].
       - split; [intuition discriminate|intros (? & ? & [=])]. }
  all: cbn; split; [intuition discriminate|intros (? & ? & [=])].
Qed.

Lemma race_first_undecodable env args :
  (exists dd out err c,
      proc env dmypy = Exits dd out err c /\ (out = None \/ err = None) /\
      0 <= dd /\ not_before (proc env mypy) dd)
  \/ (exists ds out err c,
      proc env mypy = Exits ds out err c /\ (out = None \/ err = None) /\
      0 <= ds /\ not_by (proc env dmypy) ds) ->
  exists t,
    race env args 0 = Stopped (launch_events env args) t (Raise UnicodeDecodeError).
Proof.
  intros [(dd & out & err & c & Hd & Hbad & H0 & Hs)
         |(ds & out & err & c & Hs & Hbad & H0 & Hd)]; race_start.
  - rewrite Hd. unfold not_before in Hs.
    destruct (proc env mypy) as [|ds [so|] [se|] sc|]; cbn in Hs;
      destruct Hbad as [-> | ->]; try destruct out; try destruct err.
    all: qsolve; eexists; reflexivity.
  - rewrite Hs. unfold not_by in Hd.
    destruct (proc env dmypy) as [|dd [o|] [e|] dc|]; cbn in Hd; try lra;
      destruct Hbad as [-> | ->]; try destruct out; try destruct err.
    all: qsolve; eexists; reflexivity.
Qed.

Lemma race_kill_does_not_return env args dd o e c :
  proc env dmypy = Exits dd (Some o) (Some e) c ->
  not_before (proc env mypy) dd ->
  is_successful_result (mkProcResult dmypy o e c) = false ->
  (forall dk ko ke kc, proc env kill <> Exits dk (Some ko) (Some ke) kc) ->
  exists t w,
    race env args 0 =
      Stopped (launch_events env args ++
               [Log WARNING (DmypyExited c e o); Exec kill (kill_cmd env)]) t w /\
    aborted w.
Proof.
  intros Hd Hs Hbad Hk. race_start. rewrite Hd. unfold not_before in Hs.
  destruct (proc env mypy) as [|ds [so|] [se|] sc|]; cbn in Hs.
  all: qsolve; rewrite Hbad; qsolve.
  all: destruct (proc env kill) as [|dk [ko|] [ke|] kc|] eqn:Hkill;
    try (exfalso; eapply Hk; reflexivity).
  all: qsolve; do 2 eexists;
    (split; [reflexivity|first [now left | now (right; left) | now (right; right)]]).
Qed.

(** X14.  Output that is not valid UTF-8 from whichever checker finishes
    first aborts the invocation with the decoding error, and nothing is
    reported, whatever the other checker answers or would answer. *)
Theorem undecodable_output_is_fatal env :
  tl (argv env) <> [] ->
  (exists dd out err c,
      proc env dmypy = Exits dd out err c /\ (out = None \/ err = None) /\
      0 <= dd /\ not_before (proc env mypy) dd)
  \/ (exists ds out err c,
      proc env mypy = Exits ds out err c /\ (out = None \/ err = None) /\
      0 <= ds /\ not_by (proc env dmypy) ds) ->
  exists t,
    run env =
    Stopped (launch_events env (tl (argv env))) t (Raise UnicodeDecodeError).
Proof.
  intros Ha H. destruct (race_first_undecodable env (tl (argv env)) H) as (t & Hr).
  exists t. now apply run_Stopped.
Qed.

Lemma undecodable_output_is_fatal_witness :
  exists t,
    run env_mypy_garbles =
    Stopped (launch_events env_mypy_garbles (tl (argv env_mypy_garbles))) t
            (Raise UnicodeDecodeError).
Proof.
  apply (@undecodable_output_is_fatal env_mypy_garbles).
  - discriminate.
  - right. exists 2, None, (Some []), 1%Z.
    split; [reflexivity|]. split; [left; reflexivity|].
    split; [discriminate|exact I].
Defined.

(** X15.  After a rejected daemon result the one-shot result is reported
    only if the kill command returns: if it cannot be launched, writes
    output that cannot be decoded, or never exits, the invocation ends
    right after launching it, without a result and without ever awaiting
    the one-shot task. *)
Theorem kill_must_return env dd o e c :
  tl (argv env) <> [] ->
  proc env dmypy = Exits dd (Some o) (Some e) c ->
  not_before (proc env mypy) dd ->
  is_successful_result (mkProcResult dmypy o e c) = false ->
  (forall dk ko ke kc, proc env kill <> Exits dk (Some ko) (Some ke) kc) ->
  exists t w,
    run env =
      Stopped (launch_events env (tl (argv env)) ++
               [Log WARNING (DmypyExited c e o); Exec kill (kill_cmd env)]) t w /\
    aborted w.
Proof.
  intros Ha Hd Hs Hbad Hk.
  destruct (race_kill_does_not_return env (tl (argv env)) Hd Hs Hbad Hk)
    as (t & w & Hr & Hw).
  exists t, w. split; [now apply run_Stopped|exact Hw].
Qed.

Lemma kill_must_return_witness :
  exists t w,
    run env_kill_hangs =
      Stopped (launch_events env_kill_hangs (tl (argv env_kill_hangs)) ++
               [Log WARNING (DmypyExited 2 (lit "Daemon crashed!") []);
                Exec kill (kill_cmd env_kill_hangs)]) t w /\
    aborted w.
Proof.
  apply (@kill_must_return env_kill_hangs (1 # 2) [] (lit "Daemon crashed!") 2%Z).
  - discriminate.
  - reflexivity.
  - discriminate.
  - reflexivity.
  - intros dk ko ke kc H. discriminate H.
Defined.
